(** * Arduino compile service: the compile-job pipeline of [server.js]

    A shallow embedding of [server.js] and the properties of its
    specification.

    - [Js]     : the JavaScript string primitives the code calls
                 ([includes], [split], [join], [slice], [trim], [match] for
                 the two size patterns, [parseInt]).
    - [Diag]   : the Diagnostics Extractor ([extractErrorMessage],
                 [parseSizeInfo]).
    - [Node]   : the part of the Node.js runtime the service talks to
                 ([fs], [child_process.execFile], [console], [uuid]) as
                 computations with state and exceptions over a file tree.
    - [Server] : [SUPPORTED_BOARDS], [runArduinoCli] and the handler of
                 [POST /compile].
    - [Spec]   : the words of the specification (lines, markers, first
                 occurrence of a pattern, valid request).
    - the [...Facts] modules: the string primitives against their
      declarative reading, then the properties of the extractor, of the
      invoker, of validation and of the job as a whole.

    Conventions.  A JavaScript string is a [string], one [ascii] per code
    unit.  A property that may be absent ([undefined]) is an [option].  The
    handler is a computation that returns the response it sends: every
    [return res....json(...)] of the source is a [ret]; on the paths through
    [finally] the response is handed to Express first and the cleanup runs
    before the handler returns.  What the handler cannot control (where the
    service is installed, the identifier [uuid] draws, which file-system
    calls fail, what the external binary does and how long it takes) is an
    [Env]; the file tree, the console and the sequence of calls that change
    the outside world are the [State]. *)

From Stdlib Require Import ZArith NArith Ascii.
From Stdlib Require String.
From stdpp Require Import base tactics option list strings gmap fin_maps.

(* ===================================================================== *)
(** * JavaScript string primitives *)
(* ===================================================================== *)

Module Js.

(** A JavaScript string is a sequence of code units; it is embedded as a
    [string], one [ascii] per code unit. *)

Definition LF : ascii := "010"%char.

(** [s.startsWith(p)] *)
Fixpoint starts_with (p s : string) : bool :=
  match p, s with
  | EmptyString, _ => true
  | String a p', String b s' => if decide (a = b) then starts_with p' s' else false
  | String _ _, EmptyString => false
  end.

(** [s.slice(p.length)] when [s] starts with [p] *)
Fixpoint strip_prefix (p s : string) : option string :=
  match p, s with
  | EmptyString, _ => Some s
  | String a p', String b s' => if decide (a = b) then strip_prefix p' s' else None
  | String _ _, EmptyString => None
  end.

(** [hay.includes(needle)] *)
Fixpoint includes (needle hay : string) : bool :=
  starts_with needle hay ||
  match hay with
  | EmptyString => false
  | String _ hay' => includes needle hay'
  end.

(** [s.split(sep)] for a one-character separator: never the empty list. *)
Fixpoint split (sep : ascii) (s : string) : list string :=
  match s with
  | EmptyString => [EmptyString]
  | String c s' =>
      if decide (c = sep) then EmptyString :: split sep s'
      else match split sep s' with
           | l :: ls => String c l :: ls
           | [] => [String c EmptyString]
           end
  end.

(** [xs.join(sep)] *)
Fixpoint join (sep : string) (xs : list string) : string :=
  match xs with
  | [] => ""
  | [x] => x
  | x :: xs' => x +:+ sep +:+ join sep xs'
  end.

(** [s.slice(0, n)] for [0 <= n]: the first [n] code units, all of [s] when
    it is shorter. *)
Fixpoint slice0 (n : nat) (s : string) : string :=
  match n, s with
  | O, _ => ""
  | S _, EmptyString => ""
  | S n', String c s' => String c (slice0 n' s')
  end.

(** White space and line terminators of [String.prototype.trim] among the
    code units below 256. *)
Definition is_trim_space (c : ascii) : bool :=
  match N_of_ascii c with
  | 9%N | 10%N | 11%N | 12%N | 13%N | 32%N | 160%N => true
  | _ => false
  end.

Fixpoint trim_start (s : string) : string :=
  match s with
  | EmptyString => ""
  | String c s' => if is_trim_space c then trim_start s' else s
  end.

Fixpoint trim_end (s : string) : string :=
  match s with
  | EmptyString => ""
  | String c s' =>
      match trim_end s' with
      | EmptyString => if is_trim_space c then "" else String c ""
      | t => String c t
      end
  end.

(** [s.trim()] *)
Definition trim (s : string) : string := trim_end (trim_start s).

(** [\d] without the [u] flag: the ten ASCII digits. *)
Definition is_digit (c : ascii) : bool :=
  match Ascii.is_nat c with Some _ => true | None => false end.

(** The longest run of digits at the head of [s], and what follows it. *)
Fixpoint span_digits (s : string) : string * string :=
  match s with
  | EmptyString => ("", "")
  | String c s' =>
      if is_digit c
      then let '(ds, rest) := span_digits s' in (String c ds, rest)
      else ("", s)
  end.

(** The pattern [/<lit>(\d+) bytes/] tried at the head of [s]; the result is
    capture group 1.  [\d+] is greedy and the character after the digits
    must be a space, so the longest run of digits is the only candidate. *)
Definition match_here (lit s : string) : option string :=
  match strip_prefix lit s with
  | None => None
  | Some r =>
      let '(ds, rest) := span_digits r in
      match ds with
      | EmptyString => None
      | _ => if starts_with " bytes" rest then Some ds else None
      end
  end.

(** [s.match(/<lit>(\d+) bytes/)]: the first position, from the left, where
    the pattern matches; [None] is JavaScript's [null]. *)
Fixpoint regex_match (lit s : string) : option string :=
  match match_here lit s with
  | Some ds => Some ds
  | None =>
      match s with
      | EmptyString => None
      | String _ s' => regex_match lit s'
      end
  end.

(** A JavaScript number that holds an integer: a double, or [Infinity]. *)
Inductive number : Type :=
| Num (n : N)
| Infinity.

(** The value of a string of decimal digits. *)
Fixpoint decimal_value (acc : N) (ds : string) : N :=
  match ds with
  | EmptyString => acc
  | String c ds' =>
      match Ascii.is_nat c with
      | Some d => decimal_value (10 * acc + N.of_nat d) ds'
      | None => acc
      end
  end.

(** Rounding of a natural number to the nearest double, ties to even. *)
Definition to_double (n : N) : number :=
  if (n <? 2 ^ 53)%N then Num n
  else
    let e := (N.log2 n - 52)%N in
    let q := (n / 2 ^ e)%N in
    let r := (n mod 2 ^ e)%N in
    let half := (2 ^ (e - 1))%N in
    let q' :=
      if (r <? half)%N then q
      else if (half <? r)%N then (q + 1)%N
      else if N.even q then q else (q + 1)%N in
    let v := (q' * 2 ^ e)%N in
    if (2 ^ 1024 <=? v)%N then Infinity else Num v.

(** [parseInt(ds, 10)] on a non-empty string of digits. *)
Definition parseInt (ds : string) : number := to_double (decimal_value 0 ds).

(** [!x] for a value that is a string or [undefined]/[null]. *)
Definition falsy (x : option string) : bool :=
  match x with
  | None => true
  | Some EmptyString => true
  | Some _ => false
  end.

(** [a || b] where [a] is a string or [undefined] and [b] a string. *)
Definition or_else (a : option string) (b : string) : string :=
  match a with
  | Some (String _ _ as s) => s
  | _ => b
  end.

End Js.

(* ===================================================================== *)
(** * Diagnostics Extractor *)
(* ===================================================================== *)

Module Diag.
Import Js.

(** The predicate of the [filter] in [extractErrorMessage]. *)
Definition is_error_line (line : string) : bool :=
  includes "error:" line
  || includes "Error:" line
  || includes "undefined reference" line
  || includes "fatal error" line.

(** [extractErrorMessage(output)]; [None] is an [undefined] argument. *)
Definition extractErrorMessage (output : option string) : string :=
  match output with
  | None | Some EmptyString => "Unknown compilation error"
  | Some output =>
      let lines := split LF output in
      let errorLines := List.filter is_error_line lines in
      if (0 <? length errorLines)%nat
      then join (String LF "") (take 8 errorLines)
      else slice0 800 output
  end.

(** The object [{ flash, ram }] returned by [parseSizeInfo]. *)
Record SizeInfo : Type := mkSizeInfo {
  flash : option number;
  ram : option number;
}.

(** [parseSizeInfo(output)] *)
Definition parseSizeInfo (output : string) : SizeInfo :=
  let flashMatch := regex_match "Sketch uses " output in
  let ramMatch := regex_match "Global variables use " output in
  {| flash := match flashMatch with Some ds => Some (parseInt ds) | None => None end;
     ram := match ramMatch with Some ds => Some (parseInt ds) | None => None end |}.

End Diag.

(* ===================================================================== *)
(** * The Node.js runtime seen by the service *)
(* ===================================================================== *)

Module Node.

(** An absolute path, as the list of its components: [path.join] of an
    absolute path and a plain file name appends one component. *)
Abbreviation Path := (list string).

Definition path_join (dir : Path) (name : string) : Path := dir ++ [name].

(** The text of a path, as it is interpolated into messages and passed on a
    command line. *)
Definition path_text (p : Path) : string := "/" +:+ Js.join "/" p.

Inductive Entry : Type :=
| Dir
| File (content : string).

Abbreviation Tree := (gmap (list string) Entry).

(** The [code] property of an error of the runtime: an exit status or the
    name of a system error. *)
Inductive ErrCode : Type :=
| ExitStatus (n : Z)
| SysCode (name : string).

(** An [Error] object with the properties the service and its callers can
    read; [None] is an absent property. *)
Record Error : Type := mkError {
  message : string;
  combined : option string;
  code : option ErrCode;
  killed : option bool;
  signal : option string;
}.

(** [new Error(msg)] *)
Definition new_Error (msg : string) : Error :=
  {| message := msg; combined := None; code := None; killed := None; signal := None |}.

Definition system_error (name msg : string) : Error :=
  {| message := name +:+ ": " +:+ msg; combined := None;
     code := Some (SysCode name); killed := None; signal := None |}.

(** [err.combined = text] *)
Definition set_combined (e : Error) (text : string) : Error :=
  {| message := message e; combined := Some text; code := code e;
     killed := killed e; signal := signal e |}.

(** The options object given to [execFile]. *)
Record ExecOptions : Type := mkExecOptions {
  cwd : Path;
  timeout : N;
  maxBuffer : N;
}.

(** The calls that change the world outside the process, in the order they
    are made. *)
Inductive Event : Type :=
| EvMkdir (p : Path)
| EvWriteFile (p : Path) (data : string)
| EvRm (p : Path)
| EvExec (file : Path) (args : list string) (opts : ExecOptions).

(** Calls of [fs] that the operating system may refuse (permissions, disk
    full, busy directory). *)
Inductive FsCall : Type :=
| CallMkdir (p : Path)
| CallWriteFile (p : Path)
| CallReadFile (p : Path)
| CallRm (p : Path).

(** How the external binary ends when it is started with an argument
    vector on a file tree, [elapsed] milliseconds after its start: it exits
    by itself with a status ([Finished]), a signal ends it ([Signalled]), or
    the runtime reports another failure ([Aborted]: its output overflows
    [maxBuffer]).  The runtime sends the child [SIGTERM] when the timer of
    [options.timeout] fires and does nothing more: a child that does not
    handle the signal is [Signalled] by it, one that handles it goes on and
    ends as it chooses, so a run may be [Finished] after the timeout, with
    any status.  [stdout], [stderr] and [after] are the output the runtime
    captured and the file tree left when the process has ended. *)
Inductive ChildRun : Type :=
| Finished (elapsed : N) (exit_status : Z) (stdout stderr : string) (after : Tree)
| Signalled (elapsed : N) (sig : string) (stdout stderr : string) (after : Tree)
| Aborted (e : Error) (stdout stderr : string) (after : Tree).

(** Everything the handler does not control. *)
Record Env : Type := mkEnv {
  __dirname : Path;
  next_uuid : string;
  fs_fault : FsCall -> option Error;
  toolchain : list string -> ExecOptions -> Tree -> ChildRun;
}.

Record State : Type := mkState {
  files : Tree;
  console : list (string * Error);
  trace : list Event;
}.

Definition set_files (t : Tree) (s : State) : State :=
  {| files := t; console := console s; trace := trace s |}.
Definition log_event (ev : Event) (s : State) : State :=
  {| files := files s; console := console s; trace := trace s ++ [ev] |}.
Definition log_console (label : string) (e : Error) (s : State) : State :=
  {| files := files s; console := console s ++ [(label, e)]; trace := trace s |}.

(** ** Computations: state and exceptions *)

Inductive Result (A : Type) : Type :=
| Ok (a : A)
| Throw (e : Error).
Arguments Ok {A} a.
Arguments Throw {A} e.

Definition M (A : Type) : Type := State -> Result A * State.

Definition ret {A} (a : A) : M A := fun s => (Ok a, s).
Definition throw {A} (e : Error) : M A := fun s => (Throw e, s).
Definition bind {A B} (m : M A) (k : A -> M B) : M B :=
  fun s => match m s with
           | (Ok a, s') => k a s'
           | (Throw e, s') => (Throw e, s')
           end.

Declare Scope js_scope.
Delimit Scope js_scope with js.
Bind Scope js_scope with M.
Notation "'let*' x := m 'in' k" := (bind m (fun x => k))
  (at level 10, x name, m at level 100, k at level 200) : js_scope.
Notation "'let*' ' pat := m 'in' k" := (bind m (fun x => match x with pat => k end))
  (at level 10, pat pattern, m at level 100, k at level 200) : js_scope.
Notation "m ;; k" := (bind m (fun _ => k))
  (at level 100, k at level 200, right associativity) : js_scope.

(** [try { body } catch (e) { handler }] *)
Definition try_catch {A} (body : M A) (handler : Error -> M A) : M A :=
  fun s => match body s with
           | (Ok a, s') => (Ok a, s')
           | (Throw e, s') => handler e s'
           end.

(** [try { body } finally { fin }]: [fin] runs on every way out of [body];
    the outcome is that of [body] unless [fin] itself throws. *)
Definition try_finally {A} (body : M A) (fin : M unit) : M A :=
  fun s => let '(r, s') := body s in
           match fin s' with
           | (Ok _, s'') => (r, s'')
           | (Throw e, s'') => (Throw e, s'')
           end.

(** ** [fs] *)

(** The path itself and everything below it. *)
Definition under (root p : Path) : Prop := root `prefix_of` p.

(** The non-empty prefixes of a path, shortest first. *)
Fixpoint prefixes (p : Path) : list Path :=
  match p with
  | [] => []
  | c :: p' => [c] :: map (cons c) (prefixes p')
  end.

Definition parent (p : Path) : Path := removelast p.

Definition is_file (t : Tree) (p : Path) : bool :=
  match t !! p with Some (File _) => true | _ => false end.

Definition add_dir (q : Path) (t : Tree) : Tree :=
  match t !! q with
  | None => <[q := Dir]> t
  | Some _ => t
  end.

Section WithEnv.
Context (env : Env).

(** [fs.existsSync(p)]: never throws. *)
Definition existsSync (p : Path) : M bool :=
  fun s => (Ok (bool_decide (is_Some (files s !! p))), s).

(** [fs.mkdirSync(p, { recursive: true })] *)
Definition mkdirSync (p : Path) : M unit :=
  fun s =>
    let s := log_event (EvMkdir p) s in
    match fs_fault env (CallMkdir p) with
    | Some e => (Throw e, s)
    | None =>
        if is_file (files s) p
        then (Throw (system_error "EEXIST"
                       ("file already exists, mkdir '" +:+ path_text p +:+ "'")), s)
        else if existsb (is_file (files s)) (prefixes p)
        then (Throw (system_error "ENOTDIR"
                       ("not a directory, mkdir '" +:+ path_text p +:+ "'")), s)
        else (Ok tt, set_files (foldr add_dir (files s) (prefixes p)) s)
    end.

(** [fs.writeFileSync(p, data, "utf-8")] *)
Definition writeFileSync (p : Path) (data : string) : M unit :=
  fun s =>
    let s := log_event (EvWriteFile p data) s in
    match fs_fault env (CallWriteFile p) with
    | Some e => (Throw e, s)
    | None =>
        match files s !! parent p, files s !! p with
        | Some Dir, Some Dir =>
            (Throw (system_error "EISDIR"
                      ("illegal operation on a directory, open '"
                       +:+ path_text p +:+ "'")), s)
        | Some Dir, _ => (Ok tt, set_files (<[p := File data]> (files s)) s)
        | _, _ =>
            (Throw (system_error "ENOENT"
                      ("no such file or directory, open '" +:+ path_text p +:+ "'")), s)
        end
    end.

(** [fs.readFileSync(p, "utf-8")] *)
Definition readFileSync (p : Path) : M string :=
  fun s =>
    match fs_fault env (CallReadFile p) with
    | Some e => (Throw e, s)
    | None =>
        match files s !! p with
        | Some (File content) => (Ok content, s)
        | Some Dir =>
            (Throw (system_error "EISDIR" "illegal operation on a directory, read"), s)
        | None =>
            (Throw (system_error "ENOENT"
                      ("no such file or directory, open '" +:+ path_text p +:+ "'")), s)
        end
    end.

(** [fs.rmSync(p, { recursive: true, force: true })]: a missing [p] is not an
    error. *)
Definition rmSync (p : Path) : M unit :=
  fun s =>
    let s := log_event (EvRm p) s in
    match fs_fault env (CallRm p) with
    | Some e => (Throw e, s)
    | None => (Ok tt, set_files (filter (fun kv => ¬ under p kv.1) (files s)) s)
    end.

(** ** [console.error] and [uuid] *)

Definition console_error (label : string) (e : Error) : M unit :=
  fun s => (Ok tt, log_console label e s).

Definition uuidv4 : M string := ret (next_uuid env).

(** ** [child_process.execFile] *)

(** The error of a child that ended badly: [Command failed: <cmd>\n<stderr>]. *)
Definition command_failed (file : Path) (args : list string) (stderr : string)
    (c : option ErrCode) (k : bool) (sig : option string) : Error :=
  {| message := "Command failed: " +:+ Js.join " " (path_text file :: args)
                +:+ String Js.LF "" +:+ stderr;
     combined := None; code := c; killed := Some k; signal := sig |}.

(** The timer of [options.timeout] fires before the child has ended, and the
    runtime sends it [SIGTERM]; [timeout = 0] sets no timer. *)
Definition timer_fires (opts : ExecOptions) (elapsed : N) : bool :=
  (0 <? timeout opts)%N && (timeout opts <? elapsed)%N.

(** The error of a file that cannot be started, [spawn <file> <name>]: it is
    missing, or it is a directory. *)
Definition spawn_error (file : Path) (t : Tree) : Error :=
  let name := match t !! file with
              | None => "ENOENT"
              | Some _ => "EACCES"
              end in
  {| message := "spawn " +:+ path_text file +:+ " " +:+ name; combined := None;
     code := Some (SysCode name); killed := None; signal := None |}.

(** [execFile(file, args, opts, callback)], as the triple
    [(err, stdout, stderr)] the callback receives when the child has ended.
    There is no error when the child exits with status 0, whether the timer
    has fired or not; otherwise the error carries the exit status or the
    signal that ended the child, and [killed] tells whether the runtime has
    sent its signal. *)
Definition execFile (file : Path) (args : list string) (opts : ExecOptions)
    : M (option Error * string * string) :=
  fun s =>
    let s := log_event (EvExec file args opts) s in
    if is_file (files s) file then
      match toolchain env args opts (files s) with
      | Finished elapsed st out err after =>
          let s := set_files after s in
          if (st =? 0)%Z
          then (Ok (None, out, err), s)
          else (Ok (Some (command_failed file args err (Some (ExitStatus st))
                            (timer_fires opts elapsed) None),
                    out, err), s)
      | Signalled elapsed sig out err after =>
          (Ok (Some (command_failed file args err None
                       (timer_fires opts elapsed) (Some sig)),
               out, err), set_files after s)
      | Aborted e out err after => (Ok (Some e, out, err), set_files after s)
      end
    else (Ok (Some (spawn_error file (files s)), "", ""), s).

End WithEnv.

End Node.

(* ===================================================================== *)
(** * The service *)
(* ===================================================================== *)

Module Server.
Import Js Diag Node.
Local Open Scope js_scope.

(** ** Board registry *)

Record BoardInfo : Type := mkBoard {
  name : string;
  core : string;
}.

(** The object literal [SUPPORTED_BOARDS], its own properties in insertion
    order. *)
Definition SUPPORTED_BOARDS : list (string * BoardInfo) :=
  [ ("arduino:avr:uno", mkBoard "Arduino Uno" "arduino:avr");
    ("arduino:avr:nano", mkBoard "Arduino Nano" "arduino:avr");
    ("arduino:avr:nano:cpu=atmega328", mkBoard "Arduino Nano" "arduino:avr");
    ("arduino:avr:nano:cpu=atmega328old",
       mkBoard "Arduino Nano (Old Bootloader)" "arduino:avr");
    ("arduino:avr:mega:cpu=atmega2560", mkBoard "Arduino Mega 2560" "arduino:avr");
    ("arduino:avr:leonardo", mkBoard "Arduino Leonardo" "arduino:avr");
    ("arduino:avr:micro", mkBoard "Arduino Micro" "arduino:avr") ].

(** [Object.keys(o)]: the own keys, in insertion order (none of them is an
    array index). *)
Definition Object_keys {A} (o : list (string * A)) : list string := o.*1.

(** The properties every object literal inherits from [Object.prototype];
    each holds a function or an object. *)
Definition Object_prototype : list string :=
  [ "constructor"; "__defineGetter__"; "__defineSetter__"; "hasOwnProperty";
    "__lookupGetter__"; "__lookupSetter__"; "isPrototypeOf";
    "propertyIsEnumerable"; "toString"; "valueOf"; "__proto__";
    "toLocaleString" ].

(** The value of [o[key]]. *)
Inductive PropValue (A : Type) : Type :=
| OwnValue (a : A)
| InheritedValue
| Undefined.
Arguments OwnValue {A} a.
Arguments InheritedValue {A}.
Arguments Undefined {A}.

Fixpoint own_property {A} (o : list (string * A)) (key : string) : option A :=
  match o with
  | [] => None
  | (k, v) :: o' => if decide (k = key) then Some v else own_property o' key
  end.

(** [o[key]] on an object literal: an own property, else one found on the
    prototype, else [undefined]. *)
Definition get_property {A} (o : list (string * A)) (key : string) : PropValue A :=
  match own_property o key with
  | Some v => OwnValue v
  | None => if bool_decide (key ∈ Object_prototype) then InheritedValue else Undefined
  end.

(** [!v] for the value of a property: objects and functions are truthy. *)
Definition not_value {A} (v : PropValue A) : bool :=
  match v with
  | Undefined => true
  | _ => false
  end.

(** ** Requests and responses *)

(** The two properties read from [req.body]; [None] is an absent one. *)
Record Request : Type := mkRequest {
  req_code : option string;
  req_fqbn : option string;
}.

(** The JSON object sent back; [None] is a property that is not there. *)
Record Body : Type := mkBody {
  success : bool;
  error : option string;
  output : option string;
  hex : option string;
  size : option SizeInfo;
}.

Record Response : Type := mkResponse {
  status : N;
  body : Body;
}.

(** [res.status(st).json({ success: false, error })] *)
Definition failure (st : N) (err : string) : Response :=
  {| status := st;
     body := {| success := false; error := Some err; output := None;
                hex := None; size := None |} |}.

(** [res.json({ success: false, error, output })] *)
Definition compile_failure (err out : string) : Response :=
  {| status := 200;
     body := {| success := false; error := Some err; output := Some out;
                hex := None; size := None |} |}.

(** [res.json({ success: true, hex, output, size })] *)
Definition compile_success (hexContent out : string) (sizeInfo : SizeInfo) : Response :=
  {| status := 200;
     body := {| success := true; error := None; output := Some out;
                hex := Some hexContent; size := Some sizeInfo |} |}.

Definition HEX_NOT_FOUND : string := "Compilation succeeded but HEX file not found".

Section WithEnv.
Context (env : Env).

Definition CLI : Path := path_join (path_join (__dirname env) "bin") "arduino-cli".
Definition CFG : Path := path_join (__dirname env) ".arduino-cli.yaml".

Definition cli_missing : Error :=
  new_Error ("arduino-cli no existe en " +:+ path_text CLI
             +:+ ". Revisa tu Build Command en Render.").

(** ** Toolchain invoker *)

(** [fs.existsSync(CFG) ? ["--config-file", CFG, ...args] : args] *)
Definition finalArgs (cfg_there : bool) (args : list string) : list string :=
  if cfg_there then "--config-file" :: path_text CFG :: args else args.

(** The options object of the [execFile] call; [None] is an omitted
    [timeoutMs], which defaults to 120000. *)
Definition exec_options (timeoutMs : option N) : ExecOptions :=
  {| cwd := __dirname env;
     timeout := default 120000%N timeoutMs;
     maxBuffer := 50 * 1024 * 1024 |}.

(** [runArduinoCli(args, { timeoutMs })].  Awaiting the promise gives the
    resolved text or throws the rejection. *)
Definition runArduinoCli (args : list string) (timeoutMs : option N) : M string :=
  let* cli_there := existsSync CLI in
  if negb cli_there then throw cli_missing
  else
    let* cfg_there := existsSync CFG in
    let* '(err, stdout, stderr) :=
      execFile env CLI (finalArgs cfg_there args) (exec_options timeoutMs) in
    let combined := trim (stdout +:+ String LF "" +:+ stderr) in
    match err with
    | Some err => throw (set_combined err combined)
    | None => ret combined
    end.

(** ** The handler of [POST /compile] *)

Definition buildDir_of (buildId : string) : Path :=
  path_join (path_join ["tmp"] "arduino-builds") buildId.
Definition sketchDir_of (buildId : string) : Path :=
  path_join (buildDir_of buildId) "sketch".
Definition sketchFile_of (buildId : string) : Path :=
  path_join (sketchDir_of buildId) "sketch.ino".
Definition outputDir_of (buildId : string) : Path :=
  path_join (buildDir_of buildId) "output".
Definition hexFile_of (buildId : string) : Path :=
  path_join (outputDir_of buildId) "sketch.ino.hex".

(** The argument vector of the compile call. *)
Definition compile_args (fqbn buildId : string) : list string :=
  ["compile"; "--fqbn"; fqbn; "--output-dir"; path_text (outputDir_of buildId);
   path_text (sketchDir_of buildId)].

(** Lines 114-116: the two directories and the sketch file. *)
Definition prepare_workspace (buildId code : string) : M unit :=
  mkdirSync env (sketchDir_of buildId);;
  mkdirSync env (outputDir_of buildId);;
  writeFileSync env (sketchFile_of buildId) code.

(** The [catch (compileError)] of the inner [try]. *)
Definition compile_error_response (compileError : Error) : Response :=
  compile_failure
    (extractErrorMessage
       (Some (or_else (combined compileError) (message compileError))))
    (or_else (combined compileError) (message compileError)).

(** Lines 118-155: the rest of the outer [try], once the workspace is
    there.  The inner [try]/[catch] around [await runArduinoCli] either goes
    on with the output ([inl]) or returns a response ([inr]). *)
Definition compile_sketch (fqbn buildId : string) : M Response :=
  let* r :=
    try_catch
      (let* out := runArduinoCli (compile_args fqbn buildId) None in
       ret (inl out))
      (fun compileError => ret (inr (compile_error_response compileError))) in
  match r with
  | inr response => ret response
  | inl out =>
      let* hex_there := existsSync (hexFile_of buildId) in
      if negb hex_there then ret (compile_failure HEX_NOT_FOUND out)
      else
        let* hexContent := readFileSync env (hexFile_of buildId) in
        let sizeInfo := parseSizeInfo out in
        ret (compile_success hexContent out sizeInfo)
  end.

(** The [finally] block. *)
Definition cleanup (buildId : string) : M unit :=
  try_catch (rmSync env (buildDir_of buildId))
    (fun e => console_error "Cleanup error:" e).

(** The outer [try] with its [catch (error)]. *)
Definition attempt (code fqbn buildId : string) : M Response :=
  try_catch
    (prepare_workspace buildId code;;
     compile_sketch fqbn buildId)
    (fun error =>
       console_error "Compile error:" error;;
       ret (failure 500 (message error))).

(** Lines 107-169: what runs once the request is validated. *)
Definition run_job (code fqbn : string) : M Response :=
  let* buildId := uuidv4 env in
  try_finally (attempt code fqbn buildId) (cleanup buildId).

(** [app.post("/compile", async (req, res) => ...)]: the response sent. *)
Definition post_compile (req : Request) : M Response :=
  match req_code req with
  | None | Some EmptyString => ret (failure 400 "Missing code parameter")
  | Some code =>
      match req_fqbn req with
      | None | Some EmptyString => ret (failure 400 "Missing fqbn parameter")
      | Some fqbn =>
          if not_value (get_property SUPPORTED_BOARDS fqbn)
          then ret (failure 400
                       ("Unsupported board: " +:+ fqbn +:+ ". Supported: "
                        +:+ join ", " (Object_keys SUPPORTED_BOARDS)))
          else run_job code fqbn
      end
  end.

End WithEnv.

(** ** The two read-only routes *)

(** The body of [GET /health]. *)
Record Health : Type := mkHealth {
  health_status : string;
  health_version : string;
}.

Definition get_health : Health :=
  {| health_status := "ok"; health_version := "1.0.0" |}.

(** An element of the array [boards] of [GET /boards]. *)
Record BoardEntry : Type := mkBoardEntry {
  entry_fqbn : string;
  entry_name : string;
}.

(** [Object.entries(o)]: the own properties, in insertion order. *)
Definition Object_entries {A} (o : list (string * A)) : list (string * A) := o.

(** [GET /boards]: the array [boards] of the body. *)
Definition get_boards : list BoardEntry :=
  map (fun '(fqbn, info) => {| entry_fqbn := fqbn; entry_name := name info |})
    (Object_entries SUPPORTED_BOARDS).

End Server.

(* ===================================================================== *)
(** * The vocabulary of the specification *)
(* ===================================================================== *)

Module Spec.
Import Js.

Definition NL : string := String LF "".

(** [needle] occurs in [hay]. *)
Definition Substring (needle hay : string) : Prop :=
  exists pre post, hay = pre +:+ needle +:+ post.

(** [ls] are the lines of [text]: the pieces between its line feeds. *)
Definition Lines (text : string) (ls : list string) : Prop :=
  ls <> [] /\ Forall (fun l => ~ Substring NL l) ls /\ join NL ls = text.

(** The case-sensitive error markers. *)
Definition markers : list string :=
  ["error:"; "Error:"; "undefined reference"; "fatal error"].

Definition has_marker (line : string) : Prop :=
  Exists (fun m => Substring m line) markers.

Fixpoint all_digits (ds : string) : bool :=
  match ds with
  | EmptyString => true
  | String c ds' => is_digit c && all_digits ds'
  end.

(** The pattern [<lit><digits> bytes] occurs in [text] right after [pre],
    with [ds] as its digits. *)
Definition Matches_at (lit pre ds text : string) : Prop :=
  ds <> "" /\ all_digits ds = true /\
  exists post, text = pre +:+ lit +:+ ds +:+ " bytes" +:+ post.

(** [ds] are the digits of the first occurrence of the pattern in [text]. *)
Definition First_match (lit ds text : string) : Prop :=
  exists pre, Matches_at lit pre ds text /\
    forall pre' ds', Matches_at lit pre' ds' text ->
      (String.length pre <= String.length pre')%nat.

(** The pattern occurs nowhere in [text]. *)
Definition No_match (lit text : string) : Prop :=
  forall pre ds, ~ Matches_at lit pre ds text.

(** What a size pattern finds in [text]: the digits of its first occurrence,
    or nothing. *)
Definition Found (lit text : string) (found : option string) : Prop :=
  match found with
  | Some ds => First_match lit ds text
  | None => No_match lit text
  end.

Definition FLASH_PHRASE : string := "Sketch uses ".
Definition RAM_PHRASE : string := "Global variables use ".

(** A request with a source text and the identifier of a registered board. *)
Definition Valid (req : Server.Request) (code fqbn : string) : Prop :=
  Server.req_code req = Some code /\ code <> ""
  /\ Server.req_fqbn req = Some fqbn
  /\ fqbn ∈ Server.Object_keys Server.SUPPORTED_BOARDS.

(** The response of a run of the handler, if it sent one. *)
Definition sent (run : Node.Result Server.Response * Node.State)
    : option Server.Response :=
  match run.1 with
  | Node.Ok response => Some response
  | Node.Throw _ => None
  end.

(** A request that gets past the three checks of the handler. *)
Definition Accepted (req : Server.Request) (code fqbn : string) : Prop :=
  Server.req_code req = Some code /\ code <> ""
  /\ Server.req_fqbn req = Some fqbn /\ fqbn <> ""
  /\ Server.not_value (Server.get_property Server.SUPPORTED_BOARDS fqbn) = false.

(** Two environments that differ at most in whether removing a directory
    fails. *)
Definition same_but_rm (env env' : Node.Env) : Prop :=
  Node.__dirname env = Node.__dirname env'
  /\ Node.next_uuid env = Node.next_uuid env'
  /\ (forall args opts t, Node.toolchain env args opts t = Node.toolchain env' args opts t)
  /\ (forall c, (forall p, c <> Node.CallRm p) -> Node.fs_fault env c = Node.fs_fault env' c).

(** A call that starts a process. *)
Definition is_exec (ev : Node.Event) : bool :=
  match ev with
  | Node.EvExec _ _ _ => true
  | _ => false
  end.




(** The response to a toolchain that ended badly, from what it wrote and
    the command line it was given. *)
Definition failure_payload (file : Node.Path) (args : list string)
    (out err : string) : Server.Response :=
  let shown :=
    Js.or_else (Some (Js.trim (out +:+ NL +:+ err)))
      ("Command failed: " +:+ Js.join " " (Node.path_text file :: args)
       +:+ NL +:+ err) in
  Server.compile_failure (Diag.extractErrorMessage (Some shown)) shown.


End Spec.

(* ===================================================================== *)
(** * Sample inputs *)
(* ===================================================================== *)

Module Examples.

Definition gcc_output : string :=
  Js.join Spec.NL
    [ "sketch.ino: In function 'void setup()':";
      "sketch.ino:3:1: error: 'foo' was not declared in this scope";
      " foo();";
      "collect2: fatal error: ld returned 1 exit status" ].

Definition avr_size_report : string :=
  Js.join Spec.NL
    [ "Sketch uses 1234 bytes (3%) of program storage space. Maximum is 32256 bytes.";
      "Global variables use 56 bytes (2%) of dynamic memory, leaving 1992 bytes for local variables. Maximum is 2048 bytes." ].

Definition flash_only_report : string :=
  "Sketch uses 1234 bytes (3%) of program storage space. Maximum is 32256 bytes.".

Definition two_flash_phrases : string :=
  "Sketch uses 1 bytes. Sketch uses 1234 bytes. Global variables use 56 bytes.".

(** A deployment: the service lives in [/opt/render/project/src]. *)
Definition app_dir : Node.Path := ["opt"; "render"; "project"; "src"].
Definition job_id : string := "1b9d6bcd-bbfd-4b2d-9b5d-ab8dfbbd4bed".

(** Toolchains: one that builds the sketch, one that rejects it, one that
    says it built it and leaves no artifact, one that hangs until the
    [SIGTERM] of the timeout ends it, one that handles that signal and ends
    the build ten seconds late. *)
Definition builds : list string -> Node.ExecOptions -> Node.Tree -> Node.ChildRun :=
  fun _ _ t =>
    Node.Finished 2500 0 avr_size_report ""
      (<[Server.hexFile_of job_id := Node.File ":00000001FF"]> t).
Definition rejects : list string -> Node.ExecOptions -> Node.Tree -> Node.ChildRun :=
  fun _ _ t => Node.Finished 900 1 "" gcc_output t.
Definition hangs : list string -> Node.ExecOptions -> Node.Tree -> Node.ChildRun :=
  fun _ opts t => Node.Signalled (Node.timeout opts + 2) "SIGTERM" "" "" t.

Definition env_of (tc : list string -> Node.ExecOptions -> Node.Tree -> Node.ChildRun)
    : Node.Env :=
  {| Node.__dirname := app_dir; Node.next_uuid := job_id;
     Node.fs_fault := fun _ => None; Node.toolchain := tc |}.

(** The same deployment on a disk where removing the job directory fails. *)
Definition rm_fails (env : Node.Env) : Node.Env :=
  {| Node.__dirname := Node.__dirname env; Node.next_uuid := Node.next_uuid env;
     Node.fs_fault := fun c =>
       match c with
       | Node.CallRm _ => Some (Node.system_error "EBUSY" "resource busy or locked, rm")
       | _ => Node.fs_fault env c
       end;
     Node.toolchain := Node.toolchain env |}.

(** File trees: the binary and its configuration installed, the binary
    without configuration, nothing installed. *)
Definition with_cli : Node.Tree :=
  {[ app_dir ++ ["bin"; "arduino-cli"] := Node.File "ELF" ]}.
Definition with_cli_and_cfg : Node.Tree :=
  <[ app_dir ++ [".arduino-cli.yaml"] := Node.File "directories: {}" ]> with_cli.

Definition boot (t : Node.Tree) : Node.State :=
  {| Node.files := t; Node.console := []; Node.trace := [] |}.

Definition blink : Server.Request :=
  {| Server.req_code := Some "void setup(){} void loop(){}";
     Server.req_fqbn := Some "arduino:avr:uno" |}.

(** The same deployment on a disk that is full, and on one where files
    cannot be read. *)
Definition disk_full (env : Node.Env) : Node.Env :=
  {| Node.__dirname := Node.__dirname env; Node.next_uuid := Node.next_uuid env;
     Node.fs_fault := fun c =>
       match c with
       | Node.CallMkdir _ =>
           Some (Node.system_error "ENOSPC" "no space left on device, mkdir")
       | _ => Node.fs_fault env c
       end;
     Node.toolchain := Node.toolchain env |}.


(** The state once the workspace of [blink] is made. *)
Definition prepared (env : Node.Env) : Node.State :=
  (Server.prepare_workspace env job_id "void setup(){} void loop(){}"
     (boot with_cli)).2.

End Examples.

(* ===================================================================== *)
(** * Facts about the string primitives *)
(* ===================================================================== *)

Module JsFacts.
Import Js Spec.

Lemma sapp_nil_l s : "" +:+ s = s.
Proof. reflexivity. Qed.

Lemma sapp_cons a s t : String a s +:+ t = String a (s +:+ t).
Proof. reflexivity. Qed.

Lemma sapp_nil_r s : s +:+ "" = s.
Proof. induction s as [|a s IH]; [done|]. by rewrite sapp_cons, IH. Qed.

Lemma sapp_eq_nil s t : s +:+ t = "" -> s = "" /\ t = "".
Proof. destruct s; [done|]. by rewrite sapp_cons. Qed.

Lemma starts_with_spec p s : starts_with p s = true <-> exists r, s = p +:+ r.
Proof.
  revert s. induction p as [|a p IH]; intros s; simpl.
  - split; [eauto|done].
  - destruct s as [|b s].
    + split; [done|]. intros [r Hr]. by rewrite sapp_cons in Hr.
    + case_decide as Hab.
      * subst b. rewrite IH. split; intros [r Hr]; exists r.
        -- by rewrite sapp_cons, Hr.
        -- rewrite sapp_cons in Hr. by simplify_eq.
      * split; [done|]. intros [r Hr]. rewrite sapp_cons in Hr. by simplify_eq.
Qed.

Lemma strip_prefix_spec p s r : strip_prefix p s = Some r <-> s = p +:+ r.
Proof.
  revert s. induction p as [|a p IH]; intros s; simpl.
  - rewrite sapp_nil_l. split; intros; by simplify_eq.
  - destruct s as [|b s]; rewrite sapp_cons; [done|].
    case_decide as Hab.
    + subst b. rewrite IH. split; intros; by simplify_eq.
    + split; [done|]. intros; by simplify_eq.
Qed.

Lemma includes_spec needle hay : includes needle hay = true <-> Substring needle hay.
Proof.
  induction hay as [|c hay IH].
  - simpl. rewrite orb_false_r, starts_with_spec. split.
    + intros [r Hr]. by exists "", r.
    + intros (pre & post & H). symmetry in H.
      apply sapp_eq_nil in H as [-> H]. by exists post.
  - cbn [includes]. rewrite orb_true_iff, IH, starts_with_spec. split.
    + intros [[r Hr]|(pre & post & H)].
      * by exists "", r.
      * exists (String c pre), post. by rewrite sapp_cons, H.
    + intros ([|a pre] & post & H).
      * left. by exists post.
      * right. rewrite sapp_cons in H. simplify_eq. by exists pre, post.
Qed.

#[global] Instance Substring_dec needle hay : Decision (Substring needle hay).
Proof.
  destruct (includes needle hay) eqn:E.
  - left. by apply includes_spec.
  - right. intros H%includes_spec. congruence.
Defined.

(** ** [split] and [join] *)

Lemma split_nonempty sep s : split sep s <> [].
Proof.
  destruct s as [|c s]; simpl; [done|].
  case_decide; [done|]. by destruct (split sep s).
Qed.

Lemma join_cons sep x y ys :
  join sep (x :: y :: ys) = x +:+ sep +:+ join sep (y :: ys).
Proof. reflexivity. Qed.

Lemma join_cons_head sep c x xs :
  join sep (String c x :: xs) = String c (join sep (x :: xs)).
Proof. destruct xs; [done|]. by rewrite !join_cons, sapp_cons. Qed.

(** Joining the pieces with the separator gives the text back. *)
Lemma join_split sep s : join (String sep "") (split sep s) = s.
Proof.
  induction s as [|c s IH]; simpl; [done|].
  case_decide as Hc.
  - subst c. pose proof (split_nonempty sep s) as Hne.
    destruct (split sep s) as [|l ls] eqn:E; [done|].
    by rewrite join_cons, IH.
  - destruct (split sep s) as [|l ls] eqn:E.
    + by destruct (split_nonempty sep s).
    + by rewrite join_cons_head, IH.
Qed.

(** No piece holds the separator. *)
Lemma split_no_sep sep s :
  Forall (fun l => ~ Substring (String sep "") l) (split sep s).
Proof.
  induction s as [|c s IH]; simpl.
  - constructor; [|done]. intros H%includes_spec. done.
  - case_decide as Hc.
    + constructor; [|done]. intros H%includes_spec. done.
    + destruct (split sep s) as [|l ls] eqn:E.
      * by destruct (split_nonempty sep s).
      * inversion_clear IH as [|?? Hl Hls]. constructor; [|done].
        intros ([|a pre] & post & H).
        -- rewrite sapp_nil_l, sapp_cons in H. by simplify_eq.
        -- rewrite sapp_cons in H. simplify_eq. apply Hl. by exists pre, post.
Qed.

(** ** [slice] *)

Lemma slice0_length n s : String.length (slice0 n s) = (n `min` String.length s)%nat.
Proof.
  revert s. induction n as [|n IH]; intros [|c s]; simpl; try done.
  by rewrite IH.
Qed.

Lemma slice0_prefix n s : exists rest, s = slice0 n s +:+ rest.
Proof.
  revert s. induction n as [|n IH]; intros s; simpl.
  - by exists s.
  - destruct s as [|c s]; [by exists ""|].
    destruct (IH s) as [rest Hrest]. exists rest. by rewrite sapp_cons, <- Hrest.
Qed.

Lemma slice0_all n s : (String.length s <= n)%nat -> slice0 n s = s.
Proof.
  revert s. induction n as [|n IH]; intros [|c s]; simpl; try done; [lia|].
  intros H. rewrite IH; [done|lia].
Qed.

(** ** The lines of a text *)

Lemma Lines_split text : Lines text (split LF text).
Proof.
  split; [apply split_nonempty|].
  split; [apply split_no_sep | apply join_split].
Qed.

Lemma no_NL_cons c l : ~ Substring NL (String c l) -> c <> LF /\ ~ Substring NL l.
Proof.
  intros H. split.
  - intros ->. apply H. by exists "", l.
  - intros (pre & post & ->). apply H. by exists (String c pre), post.
Qed.

Lemma line_break_inj x y a b :
  ~ Substring NL x -> ~ Substring NL y ->
  x +:+ NL +:+ a = y +:+ NL +:+ b -> x = y /\ a = b.
Proof.
  revert y. induction x as [|c x IH]; intros [|d y] Hx Hy H.
  - unfold NL in H. rewrite !sapp_nil_l, !sapp_cons in H. by simplify_eq.
  - apply no_NL_cons in Hy as [Hd _].
    unfold NL in H. rewrite sapp_nil_l, !sapp_cons in H. by simplify_eq.
  - apply no_NL_cons in Hx as [Hc _].
    unfold NL in H. rewrite sapp_nil_l, !sapp_cons in H. by simplify_eq.
  - apply no_NL_cons in Hx as [_ Hx]. apply no_NL_cons in Hy as [_ Hy].
    rewrite !sapp_cons in H. simplify_eq.
    destruct (IH y Hx Hy) as [-> ->]; done.
Qed.

(** A text has one list of lines. *)
Lemma Lines_unique text ls1 ls2 : Lines text ls1 -> Lines text ls2 -> ls1 = ls2.
Proof.
  intros (Hne1 & Hno1 & Hj1) (Hne2 & Hno2 & Hj2). subst text.
  revert ls2 Hne2 Hno2 Hj2.
  induction ls1 as [|x xs IH]; intros [|y ys] ? Hno2 Hj; try done.
  inversion_clear Hno1 as [|?? Hx Hxs]. inversion_clear Hno2 as [|?? Hy Hys].
  destruct xs as [|x' xs], ys as [|y' ys].
  - simpl in Hj. by subst.
  - rewrite join_cons in Hj. simpl in Hj. subst x.
    destruct Hx. by exists y, (join NL (y' :: ys)).
  - rewrite join_cons in Hj. simpl in Hj. subst y.
    destruct Hy. by exists x, (join NL (x' :: xs)).
  - rewrite !join_cons in Hj.
    apply line_break_inj in Hj as [-> Hj]; [|done..].
    f_equal. apply IH; done.
Qed.

(** ** The size patterns *)

Lemma span_digits_app ds rest :
  all_digits ds = true ->
  match rest with String c _ => is_digit c = false | EmptyString => True end ->
  span_digits (ds +:+ rest) = (ds, rest).
Proof.
  intros Hds Hrest. induction ds as [|c ds IH].
  - rewrite sapp_nil_l. destruct rest as [|c rest]; [done|]. simpl. by rewrite Hrest.
  - simpl in Hds. apply andb_true_iff in Hds as [Hc Hds].
    rewrite sapp_cons. simpl. by rewrite Hc, IH.
Qed.

Lemma span_digits_spec s ds rest :
  span_digits s = (ds, rest) ->
  s = ds +:+ rest /\ all_digits ds = true.
Proof.
  revert ds rest. induction s as [|c s IH]; intros ds rest; simpl.
  - intros; by simplify_eq.
  - destruct (is_digit c) eqn:Hc.
    + destruct (span_digits s) as [ds' rest'] eqn:E.
      destruct (IH _ _ eq_refl) as [-> Hds'].
      intros; simplify_eq. simpl. by rewrite Hc, Hds'.
    + intros; by simplify_eq.
Qed.

Lemma match_here_spec lit s ds :
  match_here lit s = Some ds <-> Matches_at lit "" ds s.
Proof.
  unfold match_here, Matches_at. split.
  - destruct (strip_prefix lit s) as [r|] eqn:Hr; [|done].
    apply strip_prefix_spec in Hr as ->.
    destruct (span_digits r) as [ds' rest] eqn:E.
    apply span_digits_spec in E as [-> Hds'].
    destruct ds' as [|c ds']; [done|].
    destruct (starts_with " bytes" rest) eqn:Hb; [|done].
    apply starts_with_spec in Hb as [post ->].
    intros; simplify_eq. split; [done|]. split; [done|]. by exists post.
  - intros (Hne & Hds & post & Hs). rewrite sapp_nil_l in Hs. subst s.
    assert (strip_prefix lit (lit +:+ ds +:+ " bytes" +:+ post)
            = Some (ds +:+ " bytes" +:+ post)) as -> by by apply strip_prefix_spec.
    rewrite span_digits_app; [|done..].
    destruct ds as [|c ds]; [done|].
    assert (starts_with " bytes" (" bytes" +:+ post) = true) as ->; [|done].
    apply starts_with_spec. by exists post.
Qed.

Lemma Matches_at_cons lit c pre ds a s :
  Matches_at lit (String c pre) ds (String a s) <-> c = a /\ Matches_at lit pre ds s.
Proof.
  unfold Matches_at. split.
  - intros (? & ? & post & H). rewrite sapp_cons in H. simplify_eq. eauto 6.
  - intros (-> & ? & ? & post & ->). do 2 (split; [done|]). by exists post.
Qed.

Lemma Matches_at_nil_text lit c pre ds : ~ Matches_at lit (String c pre) ds "".
Proof. intros (? & ? & post & H). by rewrite sapp_cons in H. Qed.

Lemma regex_match_None lit text : regex_match lit text = None <-> No_match lit text.
Proof.
  unfold No_match. induction text as [|a s IH]; simpl.
  - destruct (match_here lit "") as [ds|] eqn:E.
    + split; [done|]. intros H. by apply match_here_spec, H in E.
    + split; [|done]. intros _ [|c pre] ds H.
      * apply match_here_spec in H. congruence.
      * by apply Matches_at_nil_text in H.
  - destruct (match_here lit (String a s)) as [ds|] eqn:E.
    + split; [done|]. intros H. by apply match_here_spec, H in E.
    + rewrite IH. split.
      * intros Hs [|c pre] ds H.
        -- apply match_here_spec in H. congruence.
        -- apply Matches_at_cons in H as [_ H]. by apply Hs in H.
      * intros H pre ds Hm. apply (H (String a pre) ds). by apply Matches_at_cons.
Qed.

Lemma regex_match_Some lit text ds :
  regex_match lit text = Some ds <-> First_match lit ds text.
Proof.
  unfold First_match. revert ds. induction text as [|a s IH]; intros ds; simpl.
  - destruct (match_here lit "") as [ds0|] eqn:E.
    + split.
      * intros; simplify_eq. exists "". split; [by apply match_here_spec|].
        intros; simpl; lia.
      * intros ([|c pre] & Hm & _).
        -- apply match_here_spec in Hm. congruence.
        -- by apply Matches_at_nil_text in Hm.
    + split; [done|]. intros ([|c pre] & Hm & _).
      * apply match_here_spec in Hm. congruence.
      * by apply Matches_at_nil_text in Hm.
  - destruct (match_here lit (String a s)) as [ds0|] eqn:E.
    + split.
      * intros; simplify_eq. exists "". split; [by apply match_here_spec|].
        intros; simpl; lia.
      * intros (pre & Hm & Hmin).
        apply match_here_spec in E. specialize (Hmin _ _ E).
        destruct pre; [|simpl in Hmin; lia].
        apply match_here_spec in Hm, E. congruence.
    + rewrite IH. split.
      * intros (pre & Hm & Hmin). exists (String a pre).
        split; [by apply Matches_at_cons|].
        intros [|c pre'] ds' Hm'.
        -- apply match_here_spec in Hm'. congruence.
        -- apply Matches_at_cons in Hm' as [_ Hm']. apply Hmin in Hm'. simpl. lia.
      * intros ([|c pre] & Hm & Hmin).
        -- apply match_here_spec in Hm. congruence.
        -- apply Matches_at_cons in Hm as [-> Hm]. exists pre. split; [done|].
           intros pre' ds' Hm'.
           assert (Matches_at lit (String a pre') ds' (String a s)) as Hm''
             by by apply Matches_at_cons.
           apply Hmin in Hm''. simpl in Hm''. lia.
Qed.

(** Below 2^53 the number [parseInt] returns is the integer written. *)
Lemma parseInt_exact ds :
  (decimal_value 0 ds < 2 ^ 53)%N -> parseInt ds = Num (decimal_value 0 ds).
Proof.
  intros H. unfold parseInt, to_double.
  by apply N.ltb_lt in H as ->.
Qed.

(** [match] finds what the specification calls found. *)
Lemma regex_match_Found lit text found :
  Found lit text found <-> regex_match lit text = found.
Proof.
  destruct found as [ds|]; simpl.
  - by rewrite regex_match_Some.
  - by rewrite regex_match_None.
Qed.

End JsFacts.

(* ===================================================================== *)
(** * The Diagnostics Extractor meets its specification *)
(* ===================================================================== *)

Module DiagFacts.
Import Js Diag Spec JsFacts.

#[global] Instance has_marker_dec line : Decision (has_marker line).
Proof. unfold has_marker. apply _. Defined.

Lemma is_error_line_spec line : is_error_line line = true <-> has_marker line.
Proof.
  unfold is_error_line, has_marker, markers.
  rewrite !orb_true_iff, !includes_spec, !Exists_cons, Exists_nil. tauto.
Qed.

Lemma filter_error_lines ls : List.filter is_error_line ls = filter has_marker ls.
Proof.
  induction ls as [|l ls IH]; [done|].
  rewrite filter_cons. simpl. rewrite IH.
  destruct (is_error_line l) eqn:E; case_decide as H; try done.
  - by apply is_error_line_spec in E.
  - apply is_error_line_spec in H. congruence.
Qed.

Lemma extractErrorMessage_unfold text :
  text <> "" ->
  extractErrorMessage (Some text) =
    let errorLines := List.filter is_error_line (split LF text) in
    if (0 <? length errorLines)%nat
    then join NL (take 8 errorLines) else slice0 800 text.
Proof. by destruct text. Qed.

(** The function in the words of the specification, on the lines [split]
    computes. *)
Lemma extractErrorMessage_split text :
  text <> "" ->
  extractErrorMessage (Some text) =
    match filter has_marker (split LF text) with
    | [] => slice0 800 text
    | errorLines => join NL (take 8 errorLines)
    end.
Proof.
  intros Hne. rewrite extractErrorMessage_unfold by done. cbv zeta.
  rewrite filter_error_lines.
  by destruct (filter has_marker (split LF text)).
Qed.

Lemma has_marker_nonempty line : has_marker line -> line <> "".
Proof. intros H%is_error_line_spec ->. done. Qed.

Lemma join_nonempty sep x xs : x <> "" -> join sep (x :: xs) <> "".
Proof.
  destruct x as [|c x]; [done|]. intros _.
  destruct xs; [done|]. by rewrite join_cons, sapp_cons.
Qed.

(** C3, at the input where the claim fails: the empty text has one line,
    the empty one, which holds no marker, and the result is not the first
    800 characters of the text. *)
Lemma extractErrorMessage_empty_text_counterexample :
  Lines "" [""] /\ filter has_marker [""] = [] /\
  extractErrorMessage (Some "") <> slice0 800 "".
Proof.
  split; [apply (Lines_split "")|]. split; [|done].
  rewrite <- filter_error_lines. reflexivity.
Qed.

(** C3, amended: for every non-empty text, [extractErrorMessage] keeps
    exactly the lines that hold one of the markers [error:], [Error:],
    [undefined reference], [fatal error], and returns the first 8 of them
    joined by line feeds, in their order; when no line holds a marker it
    returns the first 800 characters of the text. *)
Theorem extractErrorMessage_nonempty_text text lines :
  text <> "" ->
  Lines text lines ->
  extractErrorMessage (Some text) =
    match filter has_marker lines with
    | [] => slice0 800 text
    | errorLines => join NL (take 8 errorLines)
    end.
Proof.
  intros Hne Hlines.
  rewrite (Lines_unique _ _ _ Hlines (Lines_split text)).
  by apply extractErrorMessage_split.
Qed.

Lemma extractErrorMessage_nonempty_text_witness :
  extractErrorMessage (Some Examples.gcc_output) =
    join NL ["sketch.ino:3:1: error: 'foo' was not declared in this scope";
             "collect2: fatal error: ld returned 1 exit status"].
Proof.
  rewrite (extractErrorMessage_nonempty_text Examples.gcc_output
             (split LF Examples.gcc_output)).
  - rewrite <- filter_error_lines. reflexivity.
  - done.
  - apply Lines_split.
Defined.

(** C10: on an absent or empty text [extractErrorMessage] returns
    ["Unknown compilation error"], not the 800-character prefix of the text
    (which would be empty); its result is non-empty for every input, so the
    response to a failed compile has an [error] and that [error] is not the
    empty string, whatever the rejection of the invoker holds. *)
Theorem extractErrorMessage_never_empty :
  extractErrorMessage None = "Unknown compilation error"
  /\ extractErrorMessage (Some "") = "Unknown compilation error"
  /\ extractErrorMessage (Some "") <> slice0 800 ""
  /\ (forall output, extractErrorMessage output <> "")
  /\ (forall compileError,
        exists msg,
          Server.error (Server.body (Server.compile_error_response compileError))
          = Some msg
          /\ msg <> "").
Proof.
  do 3 (split; [done|]).
  assert (forall output, extractErrorMessage output <> "") as H.
  2:{ split; [done|]. intros e.
      exists (extractErrorMessage (Some (or_else (Node.combined e) (Node.message e)))).
      split; [reflexivity|apply H]. }
  intros [[|c text]|]; [done| |done].
  rewrite extractErrorMessage_split by done.
  destruct (filter has_marker (split LF (String c text))) as [|l ls] eqn:E.
  - done.
  - assert (l ∈ filter has_marker (split LF (String c text))) as Hl
      by (rewrite E; left).
    apply list_elem_of_filter in Hl as [Hl _].
    change (join NL (l :: take 7 ls) <> "").
    by apply join_nonempty, has_marker_nonempty.
Qed.

(** C4, at an input where the claim fails: the text holds both phrases of
    the claim, after an earlier program-flash phrase, and [flash] is the
    number of the earlier one. *)
Lemma parseSizeInfo_earlier_phrase_counterexample :
  Substring "Sketch uses 1234 bytes" Examples.two_flash_phrases
  /\ Substring "Global variables use 56 bytes" Examples.two_flash_phrases
  /\ parseSizeInfo Examples.two_flash_phrases
     = {| flash := Some (Num 1); ram := Some (Num 56) |}
  /\ parseSizeInfo Examples.two_flash_phrases
     <> {| flash := Some (Num 1234); ram := Some (Num 56) |}.
Proof.
  split; [by apply includes_spec|]. split; [by apply includes_spec|]. done.
Qed.

(** C4, amended: for every text, each of [flash] and [ram] is found on its
    own by one match of its pattern: it is the integer of the first
    occurrence of its phrase ([Sketch uses <digits> bytes],
    [Global variables use <digits> bytes]) and [null] when the phrase occurs
    nowhere.  In particular a text whose first program-flash phrase is
    [Sketch uses 1234 bytes] and whose first global-variables phrase is
    [Global variables use 56 bytes] gives [{ flash: 1234, ram: 56 }], and
    without a global-variables phrase it gives [ram: null] and still
    [flash: 1234]. *)
Theorem parseSizeInfo_first_match text :
  (forall f r,
     Found FLASH_PHRASE text f -> Found RAM_PHRASE text r ->
     parseSizeInfo text = {| flash := parseInt <$> f; ram := parseInt <$> r |})
  /\ (First_match FLASH_PHRASE "1234" text -> First_match RAM_PHRASE "56" text ->
      parseSizeInfo text = {| flash := Some (Num 1234); ram := Some (Num 56) |})
  /\ (First_match FLASH_PHRASE "1234" text -> No_match RAM_PHRASE text ->
      parseSizeInfo text = {| flash := Some (Num 1234); ram := None |}).
Proof.
  assert (forall f r,
     Found FLASH_PHRASE text f -> Found RAM_PHRASE text r ->
     parseSizeInfo text = {| flash := parseInt <$> f; ram := parseInt <$> r |}) as H.
  { intros f r Hf%regex_match_Found Hr%regex_match_Found.
    unfold parseSizeInfo. fold FLASH_PHRASE RAM_PHRASE. rewrite Hf, Hr.
    by destruct f, r. }
  split; [done|]. split.
  - intros Hf Hr. apply (H (Some "1234") (Some "56")); done.
  - intros Hf Hr. apply (H (Some "1234") None); done.
Qed.

Lemma parseSizeInfo_first_match_witness :
  parseSizeInfo Examples.avr_size_report
    = {| flash := Some (Num 1234); ram := Some (Num 56) |}
  /\ parseSizeInfo Examples.flash_only_report
    = {| flash := Some (Num 1234); ram := None |}.
Proof.
  split.
  - apply (proj1 (proj2 (parseSizeInfo_first_match Examples.avr_size_report)));
      by apply regex_match_Some.
  - apply (proj2 (proj2 (parseSizeInfo_first_match Examples.flash_only_report)));
      [by apply regex_match_Some | by apply regex_match_None].
Defined.

End DiagFacts.

(* ===================================================================== *)
(** * The Toolchain Invoker *)
(* ===================================================================== *)

Module InvokerFacts.
Import Js Diag Node Server Spec JsFacts.

Section WithEnv.
Context (env : Env).

(** [execFile] calls back: it never throws, and it records the call. *)
Lemma execFile_calls_back file args opts st :
  exists cb st',
    execFile env file args opts st = (Ok cb, st')
    /\ trace st' = trace st ++ [EvExec file args opts]
    /\ console st' = console st.
Proof.
  unfold execFile. cbv zeta.
  destruct (is_file _ file); [|eauto].
  destruct (toolchain env args opts _)
    as [el c out err after|el sig out err after|e out err after].
  - destruct (c =? 0)%Z; eauto.
  - eauto.
  - eauto.
Qed.

(** [runArduinoCli], one case per way through it. *)
Lemma runArduinoCli_unfold args timeoutMs st :
  runArduinoCli env args timeoutMs st =
    if bool_decide (is_Some (files st !! CLI env)) then
      let cfg_there := bool_decide (is_Some (files st !! CFG env)) in
      match execFile env (CLI env) (finalArgs env cfg_there args)
              (exec_options env timeoutMs) st with
      | (Ok (Some e, out, err), st') =>
          (Throw (set_combined e (trim (out +:+ NL +:+ err))), st')
      | (Ok (None, out, err), st') => (Ok (trim (out +:+ NL +:+ err)), st')
      | (Throw e, st') => (Throw e, st')
      end
    else (Throw (cli_missing env), st).
Proof.
  unfold runArduinoCli, bind, existsSync.
  destruct (bool_decide (is_Some (files st !! CLI env))); [|done].
  cbn [negb]. cbv zeta.
  destruct (execFile _ _ _ _ st) as [[[[[e|] out] err]|e] st']; done.
Qed.

(** C9: when the binary is there, the one call of the external binary gets
    [--config-file <CFG>] followed by the caller's arguments if the
    configuration file exists, and the caller's arguments as they are if
    it does not; no other call is made. *)
Theorem runArduinoCli_argument_vector args timeoutMs st :
  trace (runArduinoCli env args timeoutMs st).2 =
    trace st ++
    if bool_decide (is_Some (files st !! CLI env))
    then [EvExec (CLI env)
            (if bool_decide (is_Some (files st !! CFG env))
             then "--config-file" :: path_text (CFG env) :: args
             else args)
            (exec_options env timeoutMs)]
    else [].
Proof.
  rewrite runArduinoCli_unfold.
  destruct (bool_decide (is_Some (files st !! CLI env))).
  - cbv zeta.
    destruct (execFile_calls_back (CLI env)
                (finalArgs env (bool_decide (is_Some (files st !! CFG env))) args)
                (exec_options env timeoutMs) st) as ([[[e|] out] err] & st' & -> & Ht & _);
      simpl; rewrite Ht; done.
  - simpl. by rewrite List.app_nil_r.
Qed.


End WithEnv.

Example argument_vector_with_config :
  trace (runArduinoCli (Examples.env_of Examples.builds) ["version"] None
           (Examples.boot Examples.with_cli_and_cfg)).2
  = [EvExec ["opt"; "render"; "project"; "src"; "bin"; "arduino-cli"]
       ["--config-file"; "/opt/render/project/src/.arduino-cli.yaml"; "version"]
       {| cwd := ["opt"; "render"; "project"; "src"]; timeout := 120000;
          maxBuffer := 52428800 |}].
Proof. vm_compute. reflexivity. Qed.

Example argument_vector_without_config :
  trace (runArduinoCli (Examples.env_of Examples.builds) ["version"] None
           (Examples.boot Examples.with_cli)).2
  = [EvExec ["opt"; "render"; "project"; "src"; "bin"; "arduino-cli"]
       ["version"]
       {| cwd := ["opt"; "render"; "project"; "src"]; timeout := 120000;
          maxBuffer := 52428800 |}].
Proof. vm_compute. reflexivity. Qed.

Example no_call_without_binary :
  trace (runArduinoCli (Examples.env_of Examples.builds) ["version"] None
           (Examples.boot ∅)).2 = [].
Proof. vm_compute. reflexivity. Qed.



End InvokerFacts.

(* ===================================================================== *)
(** * Validation *)
(* ===================================================================== *)

Module ValidationFacts.
Import Js Diag Node Server Spec JsFacts.

(** Settles a decidable closed proposition by evaluation. *)
Ltac by_decide :=
  lazymatch goal with
  | |- ~ ?P => apply (bool_decide_eq_false_1 P); vm_compute; reflexivity
  | |- ?P => apply (bool_decide_eq_true_1 P); vm_compute; reflexivity
  end.

Lemma own_property_key {A} (o : list (string * A)) key :
  key ∈ Object_keys o -> is_Some (own_property o key).
Proof.
  unfold Object_keys. induction o as [|[k v] o IH]; simpl.
  - by intros ?%elem_of_nil.
  - intros [->|Hin]%elem_of_cons; case_decide; eauto; done.
Qed.

Lemma own_property_not_key {A} (o : list (string * A)) key :
  key ∉ Object_keys o -> own_property o key = None.
Proof.
  unfold Object_keys. induction o as [|[k v] o IH]; simpl; [done|].
  intros Hnot. apply not_elem_of_cons in Hnot as [Hne Hnot].
  case_decide; [congruence|]. by apply IH.
Qed.

Lemma Valid_Accepted req code fqbn : Valid req code fqbn -> Accepted req code fqbn.
Proof.
  intros (Hc & Hne & Hf & Hreg). repeat split; try done.
  - intros ->. assert ("" ∉ Object_keys SUPPORTED_BOARDS) by by_decide. done.
  - unfold get_property. by destruct (own_property_key _ _ Hreg) as [b ->].
Qed.

Section WithEnv.
Context (env : Env).

Lemma post_compile_accepted req code fqbn st :
  Accepted req code fqbn ->
  post_compile env req st = run_job env code fqbn st.
Proof.
  intros (Hc & Hne & Hf & Hfne & Hreg). unfold post_compile.
  rewrite Hc, Hf, Hreg. by destruct code, fqbn.
Qed.

(** C7, amended: a request whose [code] is absent or empty gets 400 with
    ["Missing code parameter"]; a request with a non-empty [code] whose
    [fqbn] is absent or empty gets 400 with ["Missing fqbn parameter"]; in
    both cases nothing else happens: no file-system call, no log, the file
    tree as it was. *)
Theorem missing_parameter_is_rejected req st :
  falsy (req_code req) || falsy (req_fqbn req) = true ->
  post_compile env req st =
    (Ok (failure 400
           (if falsy (req_code req) then "Missing code parameter"
            else "Missing fqbn parameter")),
     st).
Proof.
  unfold post_compile.
  destruct (req_code req) as [[|c code]|]; [done| |done].
  destruct (req_fqbn req) as [[|f fqbn]|]; done.
Qed.

(** C8, amended: a request with a non-empty [code] and a non-empty [fqbn]
    that is neither a key of [SUPPORTED_BOARDS] nor the name of a property
    inherited from [Object.prototype] gets 400 with
    ["Unsupported board: <fqbn>. Supported: <keys>"], the keys joined by
    [", "] in insertion order, and nothing else happens. *)
Theorem unsupported_board_is_rejected req code fqbn st :
  req_code req = Some code -> code <> "" ->
  req_fqbn req = Some fqbn -> fqbn <> "" ->
  fqbn ∉ Object_keys SUPPORTED_BOARDS ->
  fqbn ∉ Object_prototype ->
  post_compile env req st =
    (Ok (failure 400
           ("Unsupported board: " +:+ fqbn +:+ ". Supported: "
            +:+ "arduino:avr:uno, arduino:avr:nano, "
            +:+ "arduino:avr:nano:cpu=atmega328, arduino:avr:nano:cpu=atmega328old, "
            +:+ "arduino:avr:mega:cpu=atmega2560, arduino:avr:leonardo, "
            +:+ "arduino:avr:micro")),
     st)
  /\ Object_keys SUPPORTED_BOARDS =
       [ "arduino:avr:uno"; "arduino:avr:nano"; "arduino:avr:nano:cpu=atmega328";
         "arduino:avr:nano:cpu=atmega328old"; "arduino:avr:mega:cpu=atmega2560";
         "arduino:avr:leonardo"; "arduino:avr:micro" ].
Proof.
  intros Hc Hne Hf Hfne Hkey Hproto. split; [|done].
  unfold post_compile. rewrite Hc, Hf.
  destruct code as [|c code]; [done|]. destruct fqbn as [|f fqbn]; [done|].
  unfold get_property. rewrite (own_property_not_key _ _ Hkey).
  rewrite bool_decide_eq_false_2 by done. done.
Qed.

End WithEnv.

Lemma missing_parameter_is_rejected_witness :
  post_compile (Examples.env_of Examples.builds)
    {| req_code := Some ""; req_fqbn := Some "arduino:avr:uno" |}
    (Examples.boot Examples.with_cli)
  = (Ok (failure 400 "Missing code parameter"), Examples.boot Examples.with_cli)
  /\ post_compile (Examples.env_of Examples.builds)
    {| req_code := Some "void setup(){}"; req_fqbn := None |}
    (Examples.boot Examples.with_cli)
  = (Ok (failure 400 "Missing fqbn parameter"), Examples.boot Examples.with_cli).
Proof.
  split.
  - apply (missing_parameter_is_rejected (Examples.env_of Examples.builds)
             {| req_code := Some ""; req_fqbn := Some "arduino:avr:uno" |}).
    reflexivity.
  - apply (missing_parameter_is_rejected (Examples.env_of Examples.builds)
             {| req_code := Some "void setup(){}"; req_fqbn := None |}).
    reflexivity.
Defined.

(** C7, at an input where the claim fails: the request has no [fqbn], and
    no [code] either; the error is the one about [code]. *)
Lemma missing_both_parameters_counterexample :
  req_fqbn {| req_code := None; req_fqbn := None |} = None
  /\ sent (post_compile (Examples.env_of Examples.builds)
             {| req_code := None; req_fqbn := None |}
             (Examples.boot Examples.with_cli))
     = Some (failure 400 "Missing code parameter")
  /\ sent (post_compile (Examples.env_of Examples.builds)
             {| req_code := None; req_fqbn := None |}
             (Examples.boot Examples.with_cli))
     <> Some (failure 400 "Missing fqbn parameter").
Proof. done. Qed.

Lemma unsupported_board_is_rejected_witness :
  post_compile (Examples.env_of Examples.builds)
    {| req_code := Some "void setup(){}"; req_fqbn := Some "esp32:esp32:esp32" |}
    (Examples.boot Examples.with_cli)
  = (Ok (failure 400
           ("Unsupported board: esp32:esp32:esp32. Supported: "
            +:+ "arduino:avr:uno, arduino:avr:nano, "
            +:+ "arduino:avr:nano:cpu=atmega328, arduino:avr:nano:cpu=atmega328old, "
            +:+ "arduino:avr:mega:cpu=atmega2560, arduino:avr:leonardo, "
            +:+ "arduino:avr:micro")),
     Examples.boot Examples.with_cli).
Proof.
  apply (unsupported_board_is_rejected (Examples.env_of Examples.builds)
           {| req_code := Some "void setup(){}"; req_fqbn := Some "esp32:esp32:esp32" |}
           "void setup(){}" "esp32:esp32:esp32");
    [reflexivity | done | reflexivity | done | by_decide
    | by_decide].
Defined.

(** C8, at inputs where the claim fails: the [fqbn] is not a key of the
    registry and the request has no [code], or the [fqbn] is the empty
    string; the error is the one of the earlier check, which neither names
    the [fqbn] nor lists the boards. *)
Lemma unsupported_board_earlier_check_counterexample :
  ("esp32:esp32:esp32" ∉ Object_keys SUPPORTED_BOARDS)
  /\ sent (post_compile (Examples.env_of Examples.builds)
             {| req_code := None; req_fqbn := Some "esp32:esp32:esp32" |}
             (Examples.boot Examples.with_cli))
     = Some (failure 400 "Missing code parameter")
  /\ ~ Substring "esp32:esp32:esp32" "Missing code parameter"
  /\ ~ Substring "arduino:avr:uno" "Missing code parameter"
  /\ ("" ∉ Object_keys SUPPORTED_BOARDS)
  /\ sent (post_compile (Examples.env_of Examples.builds)
             {| req_code := Some "void setup(){}"; req_fqbn := Some "" |}
             (Examples.boot Examples.with_cli))
     = Some (failure 400 "Missing fqbn parameter")
  /\ ~ Substring "arduino:avr:uno" "Missing fqbn parameter".
Proof.
  split; [by_decide|]. split; [done|].
  split; [by_decide|]. split; [by_decide|].
  split; [by_decide|]. split; [done|]. by_decide.
Qed.

(** The name of an inherited property is no key of the registry, yet the
    lookup [SUPPORTED_BOARDS[fqbn]] finds a value: the request is not
    rejected, a workspace is made and the toolchain is called for a board
    that does not exist. *)
Lemma inherited_name_passes_validation :
  ("constructor" ∉ Object_keys SUPPORTED_BOARDS)
  /\ Accepted {| req_code := Some "void setup(){}"; req_fqbn := Some "constructor" |}
       "void setup(){}" "constructor"
  /\ status <$> sent (post_compile (Examples.env_of Examples.rejects)
                        {| req_code := Some "void setup(){}";
                           req_fqbn := Some "constructor" |}
                        (Examples.boot Examples.with_cli)) = Some 200%N
  /\ head (trace (post_compile (Examples.env_of Examples.rejects)
                    {| req_code := Some "void setup(){}";
                       req_fqbn := Some "constructor" |}
                    (Examples.boot Examples.with_cli)).2)
     = Some (EvMkdir (sketchDir_of Examples.job_id)).
Proof.
  split; [by_decide|]. split; [done|]. split; vm_compute; reflexivity.
Qed.

End ValidationFacts.

(* ===================================================================== *)
(** * The job: workspace, compile, cleanup *)
(* ===================================================================== *)

Module JobFacts.
Import Js Diag Node Server Spec JsFacts InvokerFacts ValidationFacts.

(** A run known by its outcome. *)
Lemma run_eq {A} (run : Result A * State) (a : A) :
  run.1 = Ok a -> run = (Ok a, run.2).
Proof. destruct run as [r s]. simpl. by intros ->. Qed.

(** ** Computations that agree *)

Lemma bind_ext {A B} (m m' : M A) (k k' : A -> M B) s :
  m s = m' s -> (forall a s', k a s' = k' a s') -> bind m k s = bind m' k' s.
Proof.
  intros Hm Hk. unfold bind. rewrite Hm.
  destruct (m' s) as [[a|e] s']; [apply Hk|done].
Qed.

Lemma try_catch_ext {A} (m m' : M A) (h h' : Error -> M A) s :
  m s = m' s -> (forall e s', h e s' = h' e s') ->
  try_catch m h s = try_catch m' h' s.
Proof.
  intros Hm Hh. unfold try_catch. rewrite Hm.
  destruct (m' s) as [[a|e] s']; [done|apply Hh].
Qed.

Section SameButRm.
Context (env env' : Env) (Hsame : same_but_rm env env').

Lemma same_dirname : __dirname env = __dirname env'.
Proof. apply Hsame. Qed.

Lemma same_uuid : next_uuid env = next_uuid env'.
Proof. apply Hsame. Qed.

Lemma same_CLI : CLI env = CLI env'.
Proof. unfold CLI. by rewrite same_dirname. Qed.

Lemma same_CFG : CFG env = CFG env'.
Proof. unfold CFG. by rewrite same_dirname. Qed.

Lemma mkdirSync_same p st : mkdirSync env p st = mkdirSync env' p st.
Proof.
  destruct Hsame as (_ & _ & _ & Hf). unfold mkdirSync. by rewrite Hf.
Qed.

Lemma writeFileSync_same p data st :
  writeFileSync env p data st = writeFileSync env' p data st.
Proof.
  destruct Hsame as (_ & _ & _ & Hf). unfold writeFileSync. by rewrite Hf.
Qed.

Lemma readFileSync_same p st : readFileSync env p st = readFileSync env' p st.
Proof.
  destruct Hsame as (_ & _ & _ & Hf). unfold readFileSync. by rewrite Hf.
Qed.

Lemma execFile_same file args opts st :
  execFile env file args opts st = execFile env' file args opts st.
Proof.
  destruct Hsame as (_ & _ & Ht & _). unfold execFile. cbv zeta. by rewrite Ht.
Qed.

Lemma runArduinoCli_same args timeoutMs st :
  runArduinoCli env args timeoutMs st = runArduinoCli env' args timeoutMs st.
Proof.
  rewrite !runArduinoCli_unfold.
  unfold cli_missing, finalArgs, exec_options.
  by rewrite same_CLI, same_CFG, same_dirname, execFile_same.
Qed.

Lemma prepare_workspace_same buildId code st :
  prepare_workspace env buildId code st = prepare_workspace env' buildId code st.
Proof.
  unfold prepare_workspace.
  apply bind_ext; [apply mkdirSync_same|]. intros _ s1.
  apply bind_ext; [apply mkdirSync_same|]. intros _ s2.
  apply writeFileSync_same.
Qed.

Lemma compile_sketch_same fqbn buildId st :
  compile_sketch env fqbn buildId st = compile_sketch env' fqbn buildId st.
Proof.
  unfold compile_sketch. apply bind_ext.
  - apply try_catch_ext; [|done].
    apply bind_ext; [apply runArduinoCli_same|done].
  - intros [out|r] s1; [|done].
    apply bind_ext; [done|]. intros [] s2; [|done].
    apply bind_ext; [apply readFileSync_same|done].
Qed.

Lemma attempt_same code fqbn buildId st :
  attempt env code fqbn buildId st = attempt env' code fqbn buildId st.
Proof.
  unfold attempt. apply try_catch_ext; [|done].
  apply bind_ext; [apply prepare_workspace_same|].
  intros _ s1. apply compile_sketch_same.
Qed.

End SameButRm.

Section WithEnv.
Context (env : Env).

(** ** The [finally] block *)

Lemma cleanup_spec buildId st :
  exists st',
    cleanup env buildId st = (Ok tt, st')
    /\ trace st' = trace st ++ [EvRm (buildDir_of buildId)]
    /\ (fs_fault env (CallRm (buildDir_of buildId)) = None ->
        files st' = filter (fun kv => ~ under (buildDir_of buildId) kv.1) (files st)
        /\ console st' = console st)
    /\ (forall e, fs_fault env (CallRm (buildDir_of buildId)) = Some e ->
        files st' = files st
        /\ console st' = console st ++ [("Cleanup error:", e)]).
Proof.
  unfold cleanup, try_catch, rmSync. cbv zeta.
  destruct (fs_fault env (CallRm (buildDir_of buildId))) as [e|].
  - eexists. split; [done|]. split; [done|]. split; [done|].
    intros e' ?. by simplify_eq.
  - eexists. split; [done|]. split; [done|]. split; done.
Qed.

(** ** The outer [try]/[catch] *)

Lemma attempt_never_throws code fqbn buildId st :
  exists response st', attempt env code fqbn buildId st = (Ok response, st').
Proof.
  unfold attempt, try_catch.
  destruct ((prepare_workspace env buildId code;; compile_sketch env fqbn buildId)%js st)
    as [[r|e] st']; eauto.
Qed.

Lemma run_job_unfold code fqbn st :
  run_job env code fqbn st =
    let '(r, s1) := attempt env code fqbn (next_uuid env) st in
    let '(_, s2) := cleanup env (next_uuid env) s1 in
    (r, s2).
Proof.
  unfold run_job, bind, uuidv4, ret, try_finally.
  destruct (attempt env code fqbn (next_uuid env) st) as [r s1].
  destruct (cleanup_spec (next_uuid env) s1) as (s2 & -> & _). done.
Qed.

End WithEnv.

(** ** The workspace does not touch the binary *)

Lemma foldr_add_dir_lookup (ps : list Path) (t : Tree) (p : Path) :
  p ∉ ps -> foldr add_dir t ps !! p = t !! p.
Proof.
  induction ps as [|q ps IH]; [done|].
  intros [Hne Hnot]%not_elem_of_cons. simpl. unfold add_dir at 1.
  destruct (foldr add_dir t ps !! q); [by apply IH|].
  rewrite lookup_insert_ne by done. by apply IH.
Qed.

Lemma mkdirSync_lookup_other env q st r st' p :
  mkdirSync env q st = (r, st') -> p ∉ prefixes q -> files st' !! p = files st !! p.
Proof.
  unfold mkdirSync. cbv zeta. intros H Hp.
  destruct (fs_fault env (CallMkdir q)); [by simplify_eq|].
  destruct (is_file _ q); [by simplify_eq|].
  destruct (existsb _ _); simplify_eq; [done|].
  by apply foldr_add_dir_lookup.
Qed.

Lemma writeFileSync_lookup_other env q data st r st' p :
  writeFileSync env q data st = (r, st') -> p <> q -> files st' !! p = files st !! p.
Proof.
  unfold writeFileSync. cbv zeta. intros H Hp.
  destruct (fs_fault env (CallWriteFile q)); [by simplify_eq|].
  cbn [log_event files] in H.
  destruct (files st !! parent q) as [[|?]|]; try by simplify_eq.
  destruct (files st !! q) as [[|?]|]; simplify_eq; try done;
    cbn [set_files files]; by rewrite lookup_insert_ne.
Qed.

(** No path of a workspace ends in [bin/arduino-cli]. *)
Ltac not_the_CLI :=
  let H := fresh in
  intros H; apply (f_equal reverse) in H;
  unfold CLI, path_join in H; rewrite !reverse_app in H;
  simpl in H; simplify_eq.

Lemma CLI_outside_workspace env buildId :
  (CLI env ∉ prefixes (sketchDir_of buildId))
  /\ (CLI env ∉ prefixes (outputDir_of buildId))
  /\ CLI env <> sketchFile_of buildId.
Proof.
  split; [|split].
  - cbn. repeat (apply not_elem_of_cons; split; [not_the_CLI|]). apply not_elem_of_nil.
  - cbn. repeat (apply not_elem_of_cons; split; [not_the_CLI|]). apply not_elem_of_nil.
  - cbn. not_the_CLI.
Qed.

Lemma prepare_workspace_keeps_CLI env buildId code st r st1 :
  prepare_workspace env buildId code st = (r, st1) ->
  files st1 !! CLI env = files st !! CLI env.
Proof.
  destruct (CLI_outside_workspace env buildId) as (H1 & H2 & H3).
  unfold prepare_workspace, bind. intros H.
  destruct (mkdirSync env (sketchDir_of buildId) st) as [[[]|e] sa] eqn:Ea.
  - destruct (mkdirSync env (outputDir_of buildId) sa) as [[[]|e] sb] eqn:Eb.
    + rewrite (writeFileSync_lookup_other _ _ _ _ _ _ _ H H3).
      rewrite (mkdirSync_lookup_other _ _ _ _ _ _ Eb H2).
      apply (mkdirSync_lookup_other _ _ _ _ _ _ Ea H1).
    + simplify_eq. rewrite (mkdirSync_lookup_other _ _ _ _ _ _ Eb H2).
      apply (mkdirSync_lookup_other _ _ _ _ _ _ Ea H1).
  - simplify_eq. apply (mkdirSync_lookup_other _ _ _ _ _ _ Ea H1).
Qed.

(** ** The ways through the outer [try] *)

Section Ways.
Context (env : Env) (code fqbn buildId : string) (st st1 : State).
Context (Hprepared : prepare_workspace env buildId code st = (Ok tt, st1)).

Lemma attempt_rejected e st2 :
  runArduinoCli env (compile_args fqbn buildId) None st1 = (Throw e, st2) ->
  attempt env code fqbn buildId st = (Ok (compile_error_response e), st2).
Proof.
  intros Hrun. unfold attempt, try_catch at 1, bind at 1. rewrite Hprepared.
  unfold compile_sketch, bind at 1, try_catch, bind. by rewrite Hrun.
Qed.

Lemma attempt_no_artifact out st2 :
  runArduinoCli env (compile_args fqbn buildId) None st1 = (Ok out, st2) ->
  files st2 !! hexFile_of buildId = None ->
  attempt env code fqbn buildId st = (Ok (compile_failure HEX_NOT_FOUND out), st2).
Proof.
  intros Hrun Hhex. unfold attempt, try_catch at 1, bind at 1. rewrite Hprepared.
  unfold compile_sketch, bind at 1, try_catch, bind at 1. rewrite Hrun.
  unfold ret at 1. unfold bind, existsSync. rewrite Hhex.
  by rewrite bool_decide_eq_false_2 by by intros [].
Qed.

End Ways.

Lemma sent_post_compile env req code fqbn st :
  Accepted req code fqbn ->
  sent (post_compile env req st) = sent (attempt env code fqbn (next_uuid env) st).
Proof.
  intros Hacc. rewrite (post_compile_accepted env _ _ _ _ Hacc), run_job_unfold.
  destruct (attempt env code fqbn (next_uuid env) st) as [r s1].
  by destruct (cleanup env (next_uuid env) s1).
Qed.

(** C2: a request that gets past validation is answered (the handler never
    throws); the last thing the handler does, on every path, is the removal
    of the job directory; unless the removal itself fails, nothing is left at
    or below that directory; a removal that fails is logged, and whether it
    fails changes neither the response nor the fact that there is one. *)
Theorem workspace_removed_on_every_path env req code fqbn st :
  Accepted req code fqbn ->
  exists response st',
    post_compile env req st = (Ok response, st')
    /\ last (trace st') = Some (EvRm (buildDir_of (next_uuid env)))
    /\ (fs_fault env (CallRm (buildDir_of (next_uuid env))) = None ->
        forall p, under (buildDir_of (next_uuid env)) p -> files st' !! p = None)
    /\ (forall e, fs_fault env (CallRm (buildDir_of (next_uuid env))) = Some e ->
        last (console st') = Some ("Cleanup error:", e))
    /\ (forall env', same_but_rm env env' ->
        (post_compile env' req st).1 = Ok response).
Proof.
  intros Hacc. rewrite (post_compile_accepted env _ _ _ _ Hacc), run_job_unfold.
  destruct (attempt_never_throws env code fqbn (next_uuid env) st) as (r & s1 & Hbody).
  rewrite Hbody.
  destruct (cleanup_spec env (next_uuid env) s1)
    as (s2 & Hclean & Htrace & Hfiles & Hlog).
  rewrite Hclean. exists r, s2. split; [done|]. split; [|split; [|split]].
  - rewrite Htrace. apply last_snoc.
  - intros Hrm p Hp. destruct (Hfiles Hrm) as [-> _].
    apply map_lookup_filter_None. right. intros x _ Hnot. by apply Hnot.
  - intros e He. destruct (Hlog e He) as [_ ->]. apply last_snoc.
  - intros env' Hsame.
    rewrite (post_compile_accepted env' _ _ _ _ Hacc), run_job_unfold.
    rewrite <- (same_uuid _ _ Hsame), <- (attempt_same _ _ Hsame), Hbody.
    by destruct (cleanup_spec env' (next_uuid env) s1) as (s2' & -> & _).
Qed.

Lemma workspace_removed_on_every_path_witness :
  exists response st',
    post_compile (Examples.env_of Examples.builds) Examples.blink
      (Examples.boot Examples.with_cli) = (Ok response, st')
    /\ last (trace st') = Some (EvRm (buildDir_of Examples.job_id))
    /\ (fs_fault (Examples.env_of Examples.builds)
          (CallRm (buildDir_of Examples.job_id)) = None ->
        forall p, under (buildDir_of Examples.job_id) p -> files st' !! p = None)
    /\ (forall e, fs_fault (Examples.env_of Examples.builds)
                    (CallRm (buildDir_of Examples.job_id)) = Some e ->
        last (console st') = Some ("Cleanup error:", e))
    /\ (forall env', same_but_rm (Examples.env_of Examples.builds) env' ->
        (post_compile env' Examples.blink (Examples.boot Examples.with_cli)).1
        = Ok response).
Proof.
  apply (workspace_removed_on_every_path (Examples.env_of Examples.builds)
           Examples.blink "void setup(){} void loop(){}" "arduino:avr:uno").
  repeat split; done.
Defined.

(** The scenario of the specification: a sketch that builds. *)
Example blink_compiles :
  sent (post_compile (Examples.env_of Examples.builds) Examples.blink
          (Examples.boot Examples.with_cli_and_cfg))
  = Some (compile_success ":00000001FF" Examples.avr_size_report
            {| flash := Some (Num 1234); ram := Some (Num 56) |})
  /\ trace (post_compile (Examples.env_of Examples.builds) Examples.blink
              (Examples.boot Examples.with_cli_and_cfg)).2
     = [ EvMkdir (sketchDir_of Examples.job_id);
         EvMkdir (outputDir_of Examples.job_id);
         EvWriteFile (sketchFile_of Examples.job_id) "void setup(){} void loop(){}";
         EvExec (CLI (Examples.env_of Examples.builds))
           ("--config-file" :: "/opt/render/project/src/.arduino-cli.yaml"
            :: compile_args "arduino:avr:uno" Examples.job_id)
           (exec_options (Examples.env_of Examples.builds) None);
         EvRm (buildDir_of Examples.job_id) ].
Proof. split; vm_compute; reflexivity. Qed.

(** A disk on which the removal fails: the same response, the failure in the
    log, the directory still there. *)
Lemma rm_fails_same env : same_but_rm env (Examples.rm_fails env).
Proof.
  repeat split; try done. intros [] Hc; try done. by destruct (Hc p).
Qed.

Lemma cleanup_failure_is_only_logged :
  sent (post_compile (Examples.rm_fails (Examples.env_of Examples.builds))
          Examples.blink (Examples.boot Examples.with_cli))
  = sent (post_compile (Examples.env_of Examples.builds)
            Examples.blink (Examples.boot Examples.with_cli))
  /\ (console (post_compile (Examples.rm_fails (Examples.env_of Examples.builds))
                Examples.blink (Examples.boot Examples.with_cli)).2).*1
     = ["Cleanup error:"]
  /\ is_Some (files (post_compile (Examples.rm_fails (Examples.env_of Examples.builds))
                       Examples.blink (Examples.boot Examples.with_cli)).2
              !! buildDir_of Examples.job_id).
Proof.
  split; [by vm_compute|]. split; [by vm_compute|]. vm_compute. eauto.
Qed.

(** ** Failures of the compile step *)

(** C1, at an input where the claim fails: nothing is installed, the request
    is valid, and the status is 200, not 500. *)
Lemma missing_binary_counterexample :
  Valid Examples.blink "void setup(){} void loop(){}" "arduino:avr:uno"
  /\ files (Examples.boot ∅) !! CLI (Examples.env_of Examples.builds) = None
  /\ status <$> sent (post_compile (Examples.env_of Examples.builds) Examples.blink
                        (Examples.boot ∅)) = Some 200%N
  /\ status <$> sent (post_compile (Examples.env_of Examples.builds) Examples.blink
                        (Examples.boot ∅)) <> Some 500%N.
Proof.
  split; [|by vm_compute].
  repeat split; try done. by_decide.
Qed.

(** C1, amended: when the binary is absent at its install path and a valid,
    registered request has its workspace made, the response is HTTP 200 with
    [{ success: false, error, output }] where [output] is the invoker's
    message about the missing binary and [error] its summary: a
    compile-failure payload, not a 500. *)
Theorem missing_binary_is_a_compile_failure env req code fqbn st st1 :
  Valid req code fqbn ->
  prepare_workspace env (next_uuid env) code st = (Ok tt, st1) ->
  files st !! CLI env = None ->
  sent (post_compile env req st) =
    Some {| status := 200;
            body := {| success := false;
                       error := Some (extractErrorMessage
                                        (Some ("arduino-cli no existe en "
                                               +:+ path_text (CLI env)
                                               +:+ ". Revisa tu Build Command en Render.")));
                       output := Some ("arduino-cli no existe en "
                                       +:+ path_text (CLI env)
                                       +:+ ". Revisa tu Build Command en Render.");
                       hex := None; size := None |} |}.
Proof.
  intros Hvalid Hprep Hcli.
  rewrite (sent_post_compile env _ _ _ _ (Valid_Accepted _ _ _ Hvalid)).
  rewrite (attempt_rejected env code fqbn _ st st1 Hprep (cli_missing env) st1); [done|].
  rewrite runArduinoCli_unfold.
  rewrite (prepare_workspace_keeps_CLI _ _ _ _ _ _ Hprep), Hcli.
  by rewrite bool_decide_eq_false_2 by by intros [].
Qed.

Lemma missing_binary_is_a_compile_failure_witness :
  sent (post_compile (Examples.env_of Examples.builds) Examples.blink (Examples.boot ∅))
  = Some (compile_failure
            "arduino-cli no existe en /opt/render/project/src/bin/arduino-cli. Revisa tu Build Command en Render."
            "arduino-cli no existe en /opt/render/project/src/bin/arduino-cli. Revisa tu Build Command en Render.").
Proof.
  rewrite (missing_binary_is_a_compile_failure (Examples.env_of Examples.builds)
             Examples.blink "void setup(){} void loop(){}" "arduino:avr:uno"
             (Examples.boot ∅)
             (prepare_workspace (Examples.env_of Examples.builds) Examples.job_id
                "void setup(){} void loop(){}" (Examples.boot ∅)).2).
  - vm_compute. reflexivity.
  - repeat split; try done. by_decide.
  - apply run_eq. vm_compute. reflexivity.
  - vm_compute. reflexivity.
Defined.

(** The invoker on a toolchain that ends by itself before the timer. *)
Lemma runArduinoCli_finished env args timeoutMs st elapsed st_code out err after :
  is_file (files st) (CLI env) = true ->
  toolchain env
    (finalArgs env (bool_decide (is_Some (files st !! CFG env))) args)
    (exec_options env timeoutMs) (files st) = Finished elapsed st_code out err after ->
  timer_fires (exec_options env timeoutMs) elapsed = false ->
  exists st',
    files st' = after
    /\ runArduinoCli env args timeoutMs st =
       if (st_code =? 0)%Z then (Ok (trim (out +:+ NL +:+ err)), st')
       else (Throw (set_combined
                      (command_failed (CLI env)
                         (finalArgs env (bool_decide (is_Some (files st !! CFG env))) args)
                         err (Some (ExitStatus st_code)) false None)
                      (trim (out +:+ NL +:+ err))), st').
Proof.
  intros Hcli Hrun Htimer. rewrite runArduinoCli_unfold.
  assert (bool_decide (is_Some (files st !! CLI env)) = true) as ->.
  { apply bool_decide_eq_true. unfold is_file in Hcli.
    destruct (files st !! CLI env); [eauto|done]. }
  cbv zeta. unfold execFile. cbv zeta. cbn [log_event files].
  rewrite Hcli, Hrun, Htimer.
  eexists. split; [|by destruct (st_code =? 0)%Z]. done.
Qed.




End JobFacts.

(* ===================================================================== *)
(** * More about the error summary *)
(* ===================================================================== *)

Module SummaryFacts.
Import Js Diag Spec JsFacts DiagFacts ValidationFacts.

Lemma sapp_assoc s t u : (s +:+ t) +:+ u = s +:+ t +:+ u.
Proof. induction s as [|a s IH]; [done|]. by rewrite !sapp_cons, IH. Qed.

Lemma Substring_refl s : Substring s s.
Proof. exists "", "". by rewrite sapp_nil_l, sapp_nil_r. Qed.

Lemma Substring_trans a b c : Substring a b -> Substring b c -> Substring a c.
Proof.
  intros (p1 & q1 & ->) (p2 & q2 & ->).
  exists (p2 +:+ p1), (q1 +:+ q2). by rewrite !sapp_assoc.
Qed.

Lemma Substring_cons c needle hay :
  Substring needle hay -> Substring needle (String c hay).
Proof. intros (p & q & ->). by exists (String c p), q. Qed.

Lemma Substring_prefix needle s rest :
  Substring needle s -> Substring needle (s +:+ rest).
Proof.
  intros (p & q & ->). exists p, (q +:+ rest). by rewrite !sapp_assoc.
Qed.

(** Every piece that is joined occurs in the result. *)
Lemma line_in_join sep l ls : l ∈ ls -> Substring l (join sep ls).
Proof.
  induction ls as [|x [|y ys] IH].
  - by intros ?%elem_of_nil.
  - intros ->%list_elem_of_singleton. apply Substring_refl.
  - rewrite join_cons. intros [->|Hin]%elem_of_cons.
    + exists "", (sep +:+ join sep (y :: ys)). done.
    + destruct (IH Hin) as (p & q & ->).
      exists (x +:+ sep +:+ p), q. by rewrite !sapp_assoc.
Qed.

(** A text that begins with a piece free of line feeds: its first line
    begins with that piece. *)
Lemma split_app_line m rest :
  ~ Substring NL m ->
  split LF (m +:+ rest) =
    match split LF rest with
    | l :: ls => (m +:+ l) :: ls
    | [] => [m]
    end.
Proof.
  induction m as [|c m IH]; intros Hm.
  - rewrite sapp_nil_l. destruct (split LF rest) eqn:E; [|done].
    by destruct (split_nonempty LF rest).
  - apply no_NL_cons in Hm as [Hc Hm]. rewrite sapp_cons. simpl.
    case_decide; [done|]. rewrite (IH Hm).
    destruct (split LF rest) eqn:E; [|done].
    by destruct (split_nonempty LF rest).
Qed.

(** A piece free of line feeds occurs in a text exactly when it occurs in
    one of its lines. *)
Lemma occurs_in_a_line m text :
  ~ Substring NL m ->
  Substring m text <-> Exists (Substring m) (split LF text).
Proof.
  intros Hm. split.
  - induction text as [|c text IH].
    + intros H. by left.
    + intros ([|a pre] & post & H).
      * rewrite sapp_nil_l in H. rewrite H, split_app_line by done.
        destruct (split LF post) as [|l ls]; left.
        -- apply Substring_refl.
        -- exists "", l. done.
      * rewrite sapp_cons in H. simplify_eq.
        assert (Exists (Substring m) (split LF (pre +:+ m +:+ post))) as Hin
          by (apply IH; by exists pre, post).
        simpl. case_decide; [by right|].
        destruct (split LF (pre +:+ m +:+ post)) as [|l ls]; [by inversion Hin|].
        inversion_clear Hin as [?? Hl|?? Hls]; [left|by right].
        by apply Substring_cons.
  - intros (l & Hl & Hsub)%Exists_exists.
    apply (Substring_trans _ l); [done|].
    pose proof (line_in_join NL l _ Hl) as Hjoin.
    unfold NL in Hjoin. by rewrite join_split in Hjoin.
Qed.

Lemma markers_have_no_line_feed : Forall (fun m => ~ Substring NL m) markers.
Proof.
  repeat constructor; intros H%includes_spec; done.
Qed.

(** A marker occurs somewhere in the text exactly when some line holds one. *)
Lemma marker_in_text text :
  Exists (fun m => Substring m text) markers <-> Exists has_marker (split LF text).
Proof.
  unfold has_marker. rewrite !Exists_exists. split.
  - intros (m & Hm & Hsub).
    assert (~ Substring NL m) as Hnl.
    { by apply (proj1 (Forall_forall _ _) markers_have_no_line_feed). }
    apply (occurs_in_a_line _ _ Hnl), Exists_exists in Hsub as (l & Hl & Hsub).
    exists l. split; [done|]. apply Exists_exists. eauto.
  - intros (l & Hl & (m & Hm & Hsub)%Exists_exists).
    assert (~ Substring NL m) as Hnl.
    { by apply (proj1 (Forall_forall _ _) markers_have_no_line_feed). }
    exists m. split; [done|]. apply (occurs_in_a_line _ _ Hnl), Exists_exists. eauto.
Qed.

Lemma filter_nonempty_Exists {A} (P : A -> Prop) `{!forall x, Decision (P x)} (l : list A) :
  filter P l <> [] <-> Exists P l.
Proof.
  rewrite Exists_exists. split.
  - destruct (filter P l) as [|x xs] eqn:E; [done|]. intros _.
    assert (x ∈ filter P l) as Hx by (rewrite E; left).
    apply list_elem_of_filter in Hx as [? ?]. eauto.
  - intros (x & Hx & HP) E.
    assert (x ∈ filter P l) as Hin by by apply list_elem_of_filter.
    rewrite E in Hin. by apply elem_of_nil in Hin.
Qed.

Lemma filter_all {A} (P : A -> Prop) `{!forall x, Decision (P x)} (l : list A) :
  Forall P l -> filter P l = l.
Proof.
  induction 1 as [|x l Hx Hl IH]; [done|].
  rewrite filter_cons. case_decide; [|done]. by rewrite IH.
Qed.

(** Splitting what was joined gives the pieces back. *)
Lemma split_join ls :
  ls <> [] -> Forall (fun l => ~ Substring NL l) ls -> split LF (join NL ls) = ls.
Proof.
  intros Hne Hno. symmetry.
  apply (Lines_unique (join NL ls)); [done|apply Lines_split].
Qed.

Lemma error_lines_kept text :
  Forall has_marker (take 8 (filter has_marker (split LF text)))
  /\ Forall (fun l => ~ Substring NL l) (take 8 (filter has_marker (split LF text))).
Proof.
  split; apply Forall_forall; intros l Hl%subseteq_take.
  - by apply list_elem_of_filter in Hl as [? _].
  - apply list_elem_of_filter in Hl as [_ Hl].
    by apply (proj1 (Forall_forall _ _) (split_no_sep LF text)).
Qed.

(** X1.  The summary of a non-empty text.  When a marker occurs anywhere in
    the text, the lines of the summary are the first 8 lines of the text
    that hold a marker: between 1 and 8 lines, each with a marker.  When no
    marker occurs, the summary is the text cut after 800 characters. *)
Theorem summary_shape text :
  text <> "" ->
  (Exists (fun m => Substring m text) markers ->
     split LF (extractErrorMessage (Some text))
       = take 8 (filter has_marker (split LF text))
     /\ (1 <= length (split LF (extractErrorMessage (Some text))) <= 8)%nat
     /\ Forall has_marker (split LF (extractErrorMessage (Some text))))
  /\ (~ Exists (fun m => Substring m text) markers ->
      extractErrorMessage (Some text) = slice0 800 text
      /\ String.length (extractErrorMessage (Some text))
         = (800 `min` String.length text)%nat
      /\ exists rest, text = extractErrorMessage (Some text) +:+ rest).
Proof.
  intros Hne. rewrite extractErrorMessage_split by done.
  rewrite marker_in_text, <- filter_nonempty_Exists.
  destruct (error_lines_kept text) as [Hmark Hnl].
  destruct (filter has_marker (split LF text)) as [|l ls] eqn:E; split.
  - done.
  - intros _. split; [done|]. split; [apply slice0_length|apply slice0_prefix].
  - intros _. rewrite split_join; [|done|done].
    split; [done|]. split; [|done].
    rewrite length_take. cbn [length]. lia.
  - intros H. exfalso. apply H. by rewrite E.
Qed.

Lemma summary_shape_witness :
  split LF (extractErrorMessage (Some Examples.gcc_output))
  = ["sketch.ino:3:1: error: 'foo' was not declared in this scope";
     "collect2: fatal error: ld returned 1 exit status"]
  /\ extractErrorMessage (Some Examples.flash_only_report)
     = Examples.flash_only_report.
Proof.
  split.
  - rewrite (proj1 (proj1 (summary_shape Examples.gcc_output ltac:(done))
                      ltac:(by_decide))).
    rewrite <- filter_error_lines. reflexivity.
  - rewrite (proj1 (proj2 (summary_shape Examples.flash_only_report ltac:(done))
                      ltac:(by_decide))).
    reflexivity.
Defined.

Lemma slice0_Substring n m s : Substring m (slice0 n s) -> Substring m s.
Proof.
  intros H. destruct (slice0_prefix n s) as [rest Hrest].
  rewrite Hrest. by apply Substring_prefix.
Qed.

(** X2.  Summarising a summary changes nothing: what [extractErrorMessage]
    returns is its own summary. *)
Theorem extractErrorMessage_idempotent output :
  extractErrorMessage (Some (extractErrorMessage output)) = extractErrorMessage output.
Proof.
  destruct output as [text|]; [|done].
  destruct (decide (text = "")) as [->|Hne]; [done|].
  rewrite (extractErrorMessage_split text Hne).
  destruct (error_lines_kept text) as [Hmark Hnl].
  destruct (filter has_marker (split LF text)) as [|l ls] eqn:E.
  - assert (slice0 800 text <> "") as Hne' by by destruct text.
    rewrite (extractErrorMessage_split _ Hne').
    destruct (filter has_marker (split LF (slice0 800 text))) as [|l ls] eqn:E'.
    + apply slice0_all. rewrite slice0_length. lia.
    + exfalso.
      assert (Exists has_marker (split LF (slice0 800 text))) as Hex.
      { apply (proj1 (filter_nonempty_Exists has_marker _)). by rewrite E'. }
      apply (proj2 (marker_in_text _)), Exists_exists in Hex as (m & Hm & Hsub).
      apply slice0_Substring in Hsub.
      assert (Exists has_marker (split LF text)) as Hex'.
      { apply (proj1 (marker_in_text _)), Exists_exists. eauto. }
      apply (proj2 (filter_nonempty_Exists has_marker _)) in Hex'. by apply Hex'.
  - assert (join NL (take 8 (l :: ls)) <> "") as Hne'.
    { apply join_nonempty, has_marker_nonempty. by inversion Hmark. }
    rewrite (extractErrorMessage_split _ Hne').
    rewrite split_join by done.
    rewrite (filter_all _ _ Hmark).
    change (take 8 (l :: ls)) with (l :: take 7 ls). cbv iota.
    change (take 8 (l :: take 7 ls)) with (l :: take 7 (take 7 ls)).
    by rewrite take_take.
Qed.


(** ** Numbers of bytes *)

Lemma decimal_value_bound ds acc :
  all_digits ds = true ->
  (decimal_value acc ds < (acc + 1) * 10 ^ N.of_nat (String.length ds))%N.
Proof.
  revert acc. induction ds as [|c ds IH]; intros acc Hds.
  - simpl. lia.
  - simpl in Hds. apply andb_true_iff in Hds as [Hc Hds].
    unfold is_digit in Hc. cbn [decimal_value String.length].
    destruct (Ascii.is_nat c) as [d|] eqn:Ed; [|done].
    assert (d <= 9)%nat as Hd.
    { unfold Ascii.is_nat in Ed.
      repeat (match type of Ed with
              | match ?x with _ => _ end = _ => destruct x
              end; try done); simplify_eq; lia. }
    specialize (IH (10 * acc + N.of_nat d)%N Hds).
    rewrite Nat2N.inj_succ, N.pow_succ_r by lia.
    eapply N.lt_le_trans; [exact IH|].
    rewrite (N.mul_comm 10), N.mul_assoc.
    apply N.mul_le_mono_r. lia.
Qed.

(** X3.  Byte counts of at most 15 digits are reported exactly: the number
    [parseSizeInfo] gives for a field is the integer its digits write, and
    a field whose phrase is absent is [null]. *)
Theorem parseSizeInfo_exact text f r :
  Found FLASH_PHRASE text f -> Found RAM_PHRASE text r ->
  (forall ds, f = Some ds \/ r = Some ds -> (String.length ds <= 15)%nat) ->
  parseSizeInfo text =
    {| flash := (fun ds => Num (decimal_value 0 ds)) <$> f;
       ram := (fun ds => Num (decimal_value 0 ds)) <$> r |}
  /\ (forall ds, f = Some ds \/ r = Some ds -> (decimal_value 0 ds < 10 ^ 15)%N).
Proof.
  intros Hf Hr Hlen.
  assert (forall ds, f = Some ds \/ r = Some ds -> (decimal_value 0 ds < 10 ^ 15)%N)
    as Hbound.
  { intros ds Hds.
    assert (all_digits ds = true) as Hall.
    { destruct Hds as [-> | ->]; [destruct Hf as (? & (_ & ? & _) & _)
                                 |destruct Hr as (? & (_ & ? & _) & _)]; done. }
    eapply N.lt_le_trans; [by apply decimal_value_bound|].
    rewrite N.add_0_l, N.mul_1_l. apply N.pow_le_mono_r; [lia|].
    specialize (Hlen ds Hds). lia. }
  split; [|done].
  assert (forall ds, f = Some ds \/ r = Some ds ->
            parseInt ds = Num (decimal_value 0 ds)) as Hexact.
  { intros ds Hds. apply parseInt_exact.
    eapply N.lt_trans; [by apply Hbound|]. by vm_compute. }
  apply regex_match_Found in Hf, Hr.
  unfold parseSizeInfo. fold FLASH_PHRASE RAM_PHRASE. rewrite Hf, Hr.
  destruct f as [df|], r as [dr|]; simpl; rewrite ?Hexact; auto.
Qed.

Lemma parseSizeInfo_exact_witness :
  parseSizeInfo Examples.avr_size_report
  = {| flash := Some (Num 1234); ram := Some (Num 56) |}
  /\ parseSizeInfo Examples.flash_only_report
  = {| flash := Some (Num 1234); ram := None |}.
Proof.
  split.
  - apply (parseSizeInfo_exact Examples.avr_size_report (Some "1234") (Some "56"));
      [by apply regex_match_Some | by apply regex_match_Some|].
    intros ds [H|H]; simplify_eq; vm_compute; lia.
  - apply (parseSizeInfo_exact Examples.flash_only_report (Some "1234") None);
      [by apply regex_match_Some | by apply regex_match_None|].
    intros ds [H|H]; simplify_eq; vm_compute; lia.
Defined.

End SummaryFacts.

(* ===================================================================== *)
(** * More about the Toolchain Invoker *)
(* ===================================================================== *)

Module InvokerMore.
Import Js Diag Node Server Spec JsFacts InvokerFacts.

(** ** [trim] *)

Lemma trim_start_head s :
  match trim_start s with
  | EmptyString => True
  | String c _ => is_trim_space c = false
  end.
Proof.
  induction s as [|c s IH]; simpl; [done|].
  by destruct (is_trim_space c) eqn:E.
Qed.

Lemma trim_end_fixed s : trim_end (trim_end s) = trim_end s.
Proof.
  induction s as [|c s IH]; simpl; [done|].
  destruct (trim_end s) as [|d t] eqn:E.
  - destruct (is_trim_space c) eqn:Ec; simpl; [done|]. by rewrite Ec.
  - simpl in *. by rewrite IH.
Qed.

Lemma trim_end_head c s :
  is_trim_space c = false -> exists t, trim_end (String c s) = String c t.
Proof.
  intros Hc. simpl. destruct (trim_end s); [rewrite Hc|]; eauto.
Qed.

(** What [trim] returns has no white space left to trim. *)
Lemma trim_fixed s : trim (trim s) = trim s.
Proof.
  unfold trim. pose proof (trim_start_head s) as Hhead.
  destruct (trim_start s) as [|c t] eqn:E; [done|].
  destruct (trim_end_head c t Hhead) as [u Hu]. rewrite Hu.
  cbn [trim_start]. rewrite Hhead, <- Hu. apply trim_end_fixed.
Qed.

Section WithEnv.
Context (env : Env).

(** X4.  What [runArduinoCli] gives back.  A resolved text is trimmed (it
    neither begins nor ends with white space).  A rejection is either the
    error about the missing binary, raised before anything is run and with
    the state as it was, or an error that carries [combined], trimmed as
    well. *)
Theorem runArduinoCli_outcomes args timeoutMs st :
  match runArduinoCli env args timeoutMs st with
  | (Ok text, _) => is_Some (files st !! CLI env) /\ trim text = text
  | (Throw e, st') =>
      (e = cli_missing env /\ files st !! CLI env = None /\ st' = st)
      \/ (is_Some (files st !! CLI env)
          /\ exists text, combined e = Some text /\ trim text = text)
  end.
Proof.
  rewrite runArduinoCli_unfold. case_bool_decide as Hcli.
  - cbv zeta.
    destruct (execFile_calls_back env (CLI env)
                (finalArgs env (bool_decide (is_Some (files st !! CFG env))) args)
                (exec_options env timeoutMs) st) as ([[[e|] out] err] & st' & -> & _).
    + right. split; [done|]. eexists. split; [done|]. apply trim_fixed.
    + split; [done|]. apply trim_fixed.
  - left. split; [done|]. split; [|done].
    destruct (files st !! CLI env) eqn:E; [|done]. destruct Hcli. eauto.
Qed.

End WithEnv.

End InvokerMore.

(* ===================================================================== *)
(** * More about the handler *)
(* ===================================================================== *)

Module HandlerMore.
Import Js Diag Node Server Spec JsFacts InvokerFacts ValidationFacts JobFacts.
Import SummaryFacts.

(** ** The routes agree on the boards *)

(** X5.  [GET /boards] lists the keys of the registry in insertion order,
    each with the name the registry gives it, and [POST /compile] accepts
    every identifier it lists, whatever the (non-empty) source text. *)
Theorem boards_are_compilable :
  entry_fqbn <$> get_boards = Object_keys SUPPORTED_BOARDS
  /\ forall b, b ∈ get_boards ->
       (exists info, own_property SUPPORTED_BOARDS (entry_fqbn b) = Some info
                     /\ entry_name b = name info)
       /\ forall env code st, code <> "" ->
            post_compile env {| req_code := Some code; req_fqbn := Some (entry_fqbn b) |} st
            = run_job env code (entry_fqbn b) st.
Proof.
  split; [done|].
  assert (Forall (fun b =>
            (exists info, own_property SUPPORTED_BOARDS (entry_fqbn b) = Some info
                          /\ entry_name b = name info)
            /\ entry_fqbn b <> ""
            /\ not_value (get_property SUPPORTED_BOARDS (entry_fqbn b)) = false)
          get_boards) as H.
  { repeat constructor; (by eexists) || done. }
  intros b Hb. apply (proj1 (Forall_forall _ _) H) in Hb as (Hinfo & Hne & Hval).
  split; [done|]. intros env code st Hcode.
  by apply post_compile_accepted.
Qed.

(** ** Traces *)

Section WithEnv.
Context (env : Env).

Lemma mkdirSync_trace p st :
  trace (mkdirSync env p st).2 = trace st ++ [EvMkdir p].
Proof.
  unfold mkdirSync. cbv zeta. destruct (fs_fault env (CallMkdir p)); [done|].
  cbn [log_event files]. destruct (is_file (files st) p); [done|].
  by destruct (existsb _ _).
Qed.

Lemma writeFileSync_trace p data st :
  trace (writeFileSync env p data st).2 = trace st ++ [EvWriteFile p data].
Proof.
  unfold writeFileSync. cbv zeta. destruct (fs_fault env (CallWriteFile p)); [done|].
  cbn [log_event files].
  destruct (files st !! parent p) as [[|?]|]; try done.
  by destruct (files st !! p) as [[|?]|].
Qed.

Lemma readFileSync_state p st : (readFileSync env p st).2 = st.
Proof.
  unfold readFileSync. destruct (fs_fault env (CallReadFile p)); [done|].
  by destruct (files st !! p) as [[|?]|].
Qed.


Lemma runArduinoCli_console args timeoutMs st :
  console (runArduinoCli env args timeoutMs st).2 = console st.
Proof.
  rewrite runArduinoCli_unfold. case_bool_decide; [|done].
  cbv zeta.
  by destruct (execFile_calls_back env (CLI env)
                (finalArgs env (bool_decide (is_Some (files st !! CFG env))) args)
                (exec_options env timeoutMs) st)
      as ([[[e|] out] err] & st' & -> & _ & Hc).
Qed.

(** The calls of the workspace setup: the two [mkdir] and the write, up to
    the first that fails. *)
Lemma prepare_workspace_trace buildId code st :
  exists evs,
    trace (prepare_workspace env buildId code st).2 = trace st ++ evs
    /\ (evs = [EvMkdir (sketchDir_of buildId)]
        \/ evs = [EvMkdir (sketchDir_of buildId); EvMkdir (outputDir_of buildId)]
        \/ evs = [EvMkdir (sketchDir_of buildId); EvMkdir (outputDir_of buildId);
                  EvWriteFile (sketchFile_of buildId) code])
    /\ ((prepare_workspace env buildId code st).1 = Ok tt ->
        evs = [EvMkdir (sketchDir_of buildId); EvMkdir (outputDir_of buildId);
               EvWriteFile (sketchFile_of buildId) code]).
Proof.
  unfold prepare_workspace, bind.
  pose proof (mkdirSync_trace (sketchDir_of buildId) st) as H1.
  destruct (mkdirSync env (sketchDir_of buildId) st) as [[[]|e] s1]; simpl in H1.
  - pose proof (mkdirSync_trace (outputDir_of buildId) s1) as H2.
    destruct (mkdirSync env (outputDir_of buildId) s1) as [[[]|e] s2]; simpl in H2.
    + pose proof (writeFileSync_trace (sketchFile_of buildId) code s2) as H3.
      eexists. split; [|split; [right; right; reflexivity|done]].
      rewrite H3, H2, H1. by rewrite <- !(assoc_L (++)).
    + eexists. split; [|split; [right; left; reflexivity|done]].
      simpl. rewrite H2, H1. by rewrite <- !(assoc_L (++)).
  - eexists. split; [|split; [left; reflexivity|done]]. done.
Qed.

Lemma compile_sketch_trace fqbn buildId st :
  trace (compile_sketch env fqbn buildId st).2 =
    trace (runArduinoCli env (compile_args fqbn buildId) None st).2.
Proof.
  unfold compile_sketch, bind at 1, try_catch, bind at 1.
  destruct (runArduinoCli env (compile_args fqbn buildId) None st) as [[out|e] s1];
    [|done].
  cbn. unfold bind, existsSync. cbn.
  destruct (bool_decide _); [|done]. cbn.
  match goal with
  | |- context [readFileSync env ?p s1] =>
      pose proof (readFileSync_state p s1) as Hr;
      destruct (readFileSync env p s1) as [[c|e] s2]
  end; simpl in Hr; by subst.
Qed.

(** Every way through the outer [try] and its [catch]. *)
Lemma attempt_cases code fqbn buildId st :
  match prepare_workspace env buildId code st with
  | (Throw e, s1) =>
      attempt env code fqbn buildId st
      = (Ok (failure 500 (message e)), log_console "Compile error:" e s1)
  | (Ok _, s1) =>
      match runArduinoCli env (compile_args fqbn buildId) None s1 with
      | (Throw e, s2) =>
          attempt env code fqbn buildId st = (Ok (compile_error_response e), s2)
      | (Ok out, s2) =>
          if bool_decide (is_Some (files s2 !! hexFile_of buildId)) then
            match readFileSync env (hexFile_of buildId) s2 with
            | (Ok content, s3) =>
                attempt env code fqbn buildId st
                = (Ok (compile_success content out (parseSizeInfo out)), s3)
            | (Throw e, s3) =>
                attempt env code fqbn buildId st
                = (Ok (failure 500 (message e)), log_console "Compile error:" e s3)
            end
          else
            attempt env code fqbn buildId st
            = (Ok (compile_failure HEX_NOT_FOUND out), s2)
      end
  end.
Proof.
  destruct (prepare_workspace env buildId code st) as [[[]|e] s1] eqn:Hp.
  - destruct (runArduinoCli env (compile_args fqbn buildId) None s1)
      as [[out|e] s2] eqn:Hr.
    + case_bool_decide as Hhex.
      * destruct (readFileSync env (hexFile_of buildId) s2) as [[c|e] s3] eqn:Hread;
          unfold attempt, try_catch at 1, bind at 1; rewrite Hp;
          unfold compile_sketch, bind at 1, try_catch, bind at 1; rewrite Hr;
          unfold ret at 1; unfold bind at 1, existsSync;
          rewrite (bool_decide_eq_true_2 _ Hhex); cbn [negb];
          unfold bind at 1; by rewrite Hread.
      * apply (attempt_no_artifact env code fqbn buildId st s1 Hp out s2 Hr).
        destruct (files s2 !! hexFile_of buildId) eqn:E; [|done].
        destruct Hhex. eauto.
    + apply (attempt_rejected env code fqbn buildId st s1 Hp e s2 Hr).
  - unfold attempt, try_catch at 1, bind at 1. by rewrite Hp.
Qed.







(** ** The workspace *)

Lemma add_dirs_keep (ps : list Path) (t : Tree) (p : Path) x :
  t !! p = Some x -> foldr add_dir t ps !! p = Some x.
Proof.
  intros Hp. induction ps as [|q ps IH]; [done|].
  simpl. unfold add_dir at 1.
  destruct (foldr add_dir t ps !! q) eqn:E; [done|].
  rewrite lookup_insert_ne; [done|]. intros ->. congruence.
Qed.

Lemma add_dirs_only_dirs (ps : list Path) (t : Tree) (p : Path) c :
  foldr add_dir t ps !! p = Some (File c) -> t !! p = Some (File c).
Proof.
  induction ps as [|q ps IH]; [done|].
  simpl. unfold add_dir at 1.
  destruct (foldr add_dir t ps !! q) eqn:E; [done|].
  destruct (decide (q = p)) as [->|Hne].
  - by rewrite lookup_insert_eq.
  - by rewrite lookup_insert_ne.
Qed.

Lemma add_dirs_make_dirs (ps : list Path) (t : Tree) (p : Path) :
  p ∈ ps -> is_file t p = false -> foldr add_dir t ps !! p = Some Dir.
Proof.
  intros Hin Hfile. induction ps as [|q ps IH]; [by apply elem_of_nil in Hin|].
  simpl. unfold add_dir at 1.
  destruct (decide (q = p)) as [->|Hne].
  - destruct (foldr add_dir t ps !! p) as [[|c]|] eqn:E.
    + done.
    + apply add_dirs_only_dirs in E. unfold is_file in Hfile. by rewrite E in Hfile.
    + by rewrite lookup_insert_eq.
  - apply elem_of_cons in Hin as [->|Hin]; [done|].
    destruct (foldr add_dir t ps !! q); [by apply IH|].
    rewrite lookup_insert_ne by done. by apply IH.
Qed.

Lemma mkdirSync_ok_dir p st st' :
  mkdirSync env p st = (Ok tt, st') -> p ∈ prefixes p -> files st' !! p = Some Dir.
Proof.
  unfold mkdirSync. cbv zeta. intros H Hin.
  destruct (fs_fault env (CallMkdir p)); [done|]. cbn [log_event files] in H.
  destruct (is_file (files st) p) eqn:Hfile; [done|].
  destruct (existsb _ _); simplify_eq. by apply add_dirs_make_dirs.
Qed.

Lemma writeFileSync_ok p data st st' :
  writeFileSync env p data st = (Ok tt, st') ->
  files st' !! p = Some (File data) /\ files st !! parent p = Some Dir.
Proof.
  unfold writeFileSync. cbv zeta. intros H.
  destruct (fs_fault env (CallWriteFile p)); [done|]. cbn [log_event files] in H.
  destruct (files st !! parent p) as [[|?]|]; try done.
  destruct (files st !! p) as [[|?]|]; simplify_eq;
    cbn [set_files files]; by rewrite lookup_insert_eq.
Qed.

(** X9.  Once the workspace is made, the job directory holds the two
    directories and [sketch/sketch.ino] with exactly the submitted text:
    reading the file back gives that text. *)
Theorem workspace_holds_the_sketch buildId code st st1 :
  prepare_workspace env buildId code st = (Ok tt, st1) ->
  files st1 !! sketchDir_of buildId = Some Dir
  /\ files st1 !! outputDir_of buildId = Some Dir
  /\ files st1 !! sketchFile_of buildId = Some (File code)
  /\ (fs_fault env (CallReadFile (sketchFile_of buildId)) = None ->
      readFileSync env (sketchFile_of buildId) st1 = (Ok code, st1)).
Proof.
  unfold prepare_workspace, bind. intros H.
  destruct (mkdirSync env (sketchDir_of buildId) st) as [[[]|e] sa] eqn:Ea; [|done].
  destruct (mkdirSync env (outputDir_of buildId) sa) as [[[]|e] sb] eqn:Eb; [|done].
  destruct (writeFileSync_ok _ _ _ _ H) as [Hfile Hparent].
  assert (files st1 !! sketchFile_of buildId = Some (File code)) as Hsk by done.
  split; [|split; [|split]]; try done.
  - rewrite (writeFileSync_lookup_other _ _ _ _ _ _ (sketchDir_of buildId) H);
      [done|]. cbn. intros [=].
  - rewrite (writeFileSync_lookup_other _ _ _ _ _ _ (outputDir_of buildId) H);
      [|cbn; intros [=]].
    apply (mkdirSync_ok_dir _ _ _ Eb). cbn. set_solver.
  - intros Hread. unfold readFileSync. by rewrite Hread, Hsk.
Qed.

(** X10.  A workspace that cannot be made gives HTTP 500 with the message
    of the file-system error; the error goes to the log, and the toolchain
    is not started. *)
Theorem workspace_failure_is_a_500 req code fqbn st e st1 :
  Accepted req code fqbn ->
  prepare_workspace env (next_uuid env) code st = (Throw e, st1) ->
  sent (post_compile env req st) = Some (failure 500 (message e))
  /\ ("Compile error:", e) ∈ console (post_compile env req st).2
  /\ filter (fun ev => is_exec ev = true) (trace (post_compile env req st).2)
     = filter (fun ev => is_exec ev = true) (trace st).
Proof.
  intros Hacc Hp.
  pose proof (attempt_cases code fqbn (next_uuid env) st) as Hcase.
  destruct (prepare_workspace_trace (next_uuid env) code st) as (evs & Ht & Hshape & _).
  rewrite Hp in Hcase, Ht. simpl in Ht.
  split; [|split].
  - rewrite (sent_post_compile env _ _ _ _ Hacc). by rewrite Hcase.
  - rewrite (post_compile_accepted env _ _ _ _ Hacc), run_job_unfold, Hcase.
    destruct (cleanup_spec env (next_uuid env) (log_console "Compile error:" e st1))
      as (s2 & -> & _ & Hnone & Hsome). simpl.
    destruct (fs_fault env (CallRm (buildDir_of (next_uuid env)))) as [e'|].
    + destruct (Hsome e' eq_refl) as [_ ->]. simpl.
      apply elem_of_app. left. apply elem_of_app. right. by left.
    + destruct (Hnone eq_refl) as [_ ->]. simpl.
      apply elem_of_app. right. by left.
  - rewrite (post_compile_accepted env _ _ _ _ Hacc), run_job_unfold, Hcase.
    destruct (cleanup_spec env (next_uuid env) (log_console "Compile error:" e st1))
      as (s2 & -> & Ht2 & _). simpl. rewrite Ht2. simpl. rewrite Ht.
    rewrite !filter_app.
    destruct Hshape as [-> | [-> | ->]]; simpl; by rewrite !List.app_nil_r.
Qed.

(** ** The compile step *)

(** X11.  A sketch that builds: when the toolchain ends in time with status
    0 and [sketch.ino.hex] is a readable file of the output directory, the
    response is 200 with [success: true], the content of that file as
    [hex], the trimmed output as [output] and the sizes parsed from that
    output as [size]. *)
Theorem built_sketch_is_returned req code fqbn st st1 elapsed out err after content :
  Accepted req code fqbn ->
  prepare_workspace env (next_uuid env) code st = (Ok tt, st1) ->
  is_file (files st1) (CLI env) = true ->
  toolchain env
    (finalArgs env (bool_decide (is_Some (files st1 !! CFG env)))
       (compile_args fqbn (next_uuid env)))
    (exec_options env None) (files st1) = Finished elapsed 0 out err after ->
  (elapsed <= 120000)%N ->
  after !! hexFile_of (next_uuid env) = Some (File content) ->
  fs_fault env (CallReadFile (hexFile_of (next_uuid env))) = None ->
  sent (post_compile env req st) =
    Some {| status := 200;
            body := {| success := true; error := None;
                       output := Some (trim (out +:+ NL +:+ err));
                       hex := Some content;
                       size := Some (parseSizeInfo (trim (out +:+ NL +:+ err))) |} |}.
Proof.
  intros Hacc Hp Hcli Hrun Hintime Hhex Hread.
  assert (timer_fires (exec_options env None) elapsed = false) as Htimer.
  { unfold timer_fires. simpl. by apply N.ltb_ge. }
  destruct (runArduinoCli_finished env _ None st1 _ _ _ _ _ Hcli Hrun Htimer)
    as (st2 & Hfiles & Hcall). simpl in Hcall.
  pose proof (attempt_cases code fqbn (next_uuid env) st) as Hcase.
  rewrite Hp, Hcall, Hfiles, Hhex in Hcase.
  rewrite bool_decide_eq_true_2 in Hcase by eauto.
  unfold readFileSync in Hcase. rewrite Hread, Hfiles, Hhex in Hcase.
  rewrite (sent_post_compile env _ _ _ _ Hacc). by rewrite Hcase.
Qed.


(** The invoker on a toolchain that a signal ends, or that exits with a
    non-zero status. *)
Lemma runArduinoCli_failed args timeoutMs st run out err after :
  is_file (files st) (CLI env) = true ->
  toolchain env
    (finalArgs env (bool_decide (is_Some (files st !! CFG env))) args)
    (exec_options env timeoutMs) (files st) = run ->
  (exists elapsed sig, run = Signalled elapsed sig out err after)
  \/ (exists elapsed st_code,
        st_code <> 0%Z /\ run = Finished elapsed st_code out err after) ->
  exists e st',
    runArduinoCli env args timeoutMs st = (Throw e, st')
    /\ combined e = Some (trim (out +:+ NL +:+ err))
    /\ message e =
       "Command failed: "
       +:+ join " " (path_text (CLI env)
                     :: finalArgs env (bool_decide (is_Some (files st !! CFG env))) args)
       +:+ NL +:+ err.
Proof.
  intros Hcli Hrun Hbad. rewrite runArduinoCli_unfold.
  assert (bool_decide (is_Some (files st !! CLI env)) = true) as ->.
  { apply bool_decide_eq_true. unfold is_file in Hcli.
    destruct (files st !! CLI env); [eauto|done]. }
  cbv zeta. unfold execFile. cbv zeta. cbn [log_event files].
  rewrite Hcli, Hrun.
  destruct Hbad as [(elapsed & sig & ->)|(elapsed & st_code & Hst & ->)].
  - eauto 10.
  - assert ((st_code =? 0)%Z = false) as -> by by apply Z.eqb_neq.
    eauto 10.
Qed.

(** X13.  A toolchain that a signal ends (the [SIGTERM] of the timeout, or
    any other) and one that exits with a non-zero status, within the
    timeout or after it, are answered alike: HTTP 200, [success: false], and
    an [error] and [output] made from what the toolchain wrote and from its
    command line only.  Neither the exit status, nor the signal, nor the
    time the toolchain ran shows in the response. *)
Theorem toolchain_failures_look_alike req code fqbn st st1 run out err after :
  Accepted req code fqbn ->
  prepare_workspace env (next_uuid env) code st = (Ok tt, st1) ->
  is_file (files st1) (CLI env) = true ->
  toolchain env
    (finalArgs env (bool_decide (is_Some (files st1 !! CFG env)))
       (compile_args fqbn (next_uuid env)))
    (exec_options env None) (files st1) = run ->
  (exists elapsed sig, run = Signalled elapsed sig out err after)
  \/ (exists elapsed st_code,
        st_code <> 0%Z /\ run = Finished elapsed st_code out err after) ->
  sent (post_compile env req st) =
    Some (failure_payload (CLI env)
            (finalArgs env (bool_decide (is_Some (files st1 !! CFG env)))
               (compile_args fqbn (next_uuid env)))
            out err)
  /\ status (failure_payload (CLI env)
               (finalArgs env (bool_decide (is_Some (files st1 !! CFG env)))
                  (compile_args fqbn (next_uuid env)))
               out err) = 200%N.
Proof.
  intros Hacc Hp Hcli Hrun Hbad. split; [|done].
  destruct (runArduinoCli_failed _ None st1 _ _ _ _ Hcli Hrun Hbad)
    as (e & st2 & Hcall & Hcomb & Hmsg).
  rewrite (sent_post_compile env _ _ _ _ Hacc).
  rewrite (attempt_rejected env code fqbn _ st st1 Hp e st2 Hcall).
  unfold sent, compile_error_response, failure_payload. simpl.
  by rewrite Hcomb, Hmsg.
Qed.

(** ** The cleanup *)

(** X14.  The cleanup removes nothing outside the job directory; in
    particular it leaves the directory of every other job as it is. *)
Theorem cleanup_stays_in_the_job_directory buildId st :
  (forall p, ~ under (buildDir_of buildId) p ->
     files (cleanup env buildId st).2 !! p = files st !! p)
  /\ (forall other p, other <> buildId -> under (buildDir_of other) p ->
     files (cleanup env buildId st).2 !! p = files st !! p).
Proof.
  assert (forall p, ~ under (buildDir_of buildId) p ->
            files (cleanup env buildId st).2 !! p = files st !! p) as H.
  { intros p Hp.
    destruct (cleanup_spec env buildId st) as (st' & -> & _ & Hnone & Hsome). simpl.
    destruct (fs_fault env (CallRm (buildDir_of buildId))) as [e|].
    - by destruct (Hsome e eq_refl) as [-> _].
    - destruct (Hnone eq_refl) as [-> _].
      destruct (files st !! p) as [x|] eqn:E.
      + by apply map_lookup_filter_Some_2.
      + apply map_lookup_filter_None_2. by left. }
  split; [done|].
  intros other p Hne [k Hk]. apply H. intros [k' Hk'].
  rewrite Hk in Hk'. cbn in Hk'. by simplify_eq.
Qed.

End WithEnv.

(** ** The theorems at work *)

Lemma boards_are_compilable_witness :
  post_compile (Examples.env_of Examples.builds)
    {| req_code := Some "void loop(){}"; req_fqbn := Some "arduino:avr:leonardo" |}
    (Examples.boot Examples.with_cli)
  = run_job (Examples.env_of Examples.builds) "void loop(){}" "arduino:avr:leonardo"
      (Examples.boot Examples.with_cli).
Proof.
  apply (proj2 (proj2 boards_are_compilable
                  {| entry_fqbn := "arduino:avr:leonardo";
                     entry_name := "Arduino Leonardo" |}
                  ltac:(cbn; repeat constructor))
           (Examples.env_of Examples.builds) "void loop(){}"
           (Examples.boot Examples.with_cli)).
  done.
Defined.



Lemma workspace_holds_the_sketch_witness :
  files (Examples.prepared (Examples.env_of Examples.builds))
    !! sketchFile_of Examples.job_id
  = Some (File "void setup(){} void loop(){}").
Proof.
  apply (workspace_holds_the_sketch (Examples.env_of Examples.builds) Examples.job_id
           "void setup(){} void loop(){}" (Examples.boot Examples.with_cli)
           (Examples.prepared (Examples.env_of Examples.builds))).
  unfold Examples.prepared. apply run_eq. vm_compute. reflexivity.
Defined.

Lemma workspace_failure_is_a_500_witness :
  sent (post_compile (Examples.disk_full (Examples.env_of Examples.builds))
          Examples.blink (Examples.boot Examples.with_cli))
  = Some (failure 500 "ENOSPC: no space left on device, mkdir").
Proof.
  apply (workspace_failure_is_a_500
           (Examples.disk_full (Examples.env_of Examples.builds)) Examples.blink
           "void setup(){} void loop(){}" "arduino:avr:uno"
           (Examples.boot Examples.with_cli)
           (system_error "ENOSPC" "no space left on device, mkdir")
           (log_event (EvMkdir (sketchDir_of Examples.job_id))
              (Examples.boot Examples.with_cli))).
  - by repeat split.
  - reflexivity.
Defined.

Lemma built_sketch_is_returned_witness :
  sent (post_compile (Examples.env_of Examples.builds) Examples.blink
          (Examples.boot Examples.with_cli))
  = Some (compile_success ":00000001FF" Examples.avr_size_report
            {| flash := Some (Num 1234); ram := Some (Num 56) |}).
Proof.
  rewrite (built_sketch_is_returned (Examples.env_of Examples.builds) Examples.blink
             "void setup(){} void loop(){}" "arduino:avr:uno"
             (Examples.boot Examples.with_cli)
             (Examples.prepared (Examples.env_of Examples.builds))
             2500 Examples.avr_size_report ""
             (<[hexFile_of Examples.job_id := File ":00000001FF"]>
                (files (Examples.prepared (Examples.env_of Examples.builds))))
             ":00000001FF").
  - vm_compute. reflexivity.
  - by repeat split.
  - unfold Examples.prepared. apply run_eq. vm_compute. reflexivity.
  - vm_compute. reflexivity.
  - reflexivity.
  - vm_compute. discriminate.
  - apply lookup_insert_eq.
  - reflexivity.
Defined.


Lemma toolchain_failures_look_alike_witness :
  sent (post_compile (Examples.env_of Examples.hangs) Examples.blink
          (Examples.boot Examples.with_cli))
  = Some (failure_payload (CLI (Examples.env_of Examples.hangs))
            (compile_args "arduino:avr:uno" Examples.job_id) "" "")
  /\ sent (post_compile (Examples.env_of Examples.rejects) Examples.blink
             (Examples.boot Examples.with_cli))
  = Some (failure_payload (CLI (Examples.env_of Examples.rejects))
            (compile_args "arduino:avr:uno" Examples.job_id) "" Examples.gcc_output).
Proof.
  split.
  - refine (eq_trans (proj1 (toolchain_failures_look_alike
             (Examples.env_of Examples.hangs) Examples.blink
             "void setup(){} void loop(){}" "arduino:avr:uno"
             (Examples.boot Examples.with_cli)
             (Examples.prepared (Examples.env_of Examples.hangs))
             _ "" ""
             (files (Examples.prepared (Examples.env_of Examples.hangs)))
             _ _ _ eq_refl _)) _).
    + by repeat split.
    + unfold Examples.prepared. apply run_eq. vm_compute. reflexivity.
    + vm_compute. reflexivity.
    + left. exists 120002%N, "SIGTERM". reflexivity.
    + vm_compute. reflexivity.
  - refine (eq_trans (proj1 (toolchain_failures_look_alike
             (Examples.env_of Examples.rejects) Examples.blink
             "void setup(){} void loop(){}" "arduino:avr:uno"
             (Examples.boot Examples.with_cli)
             (Examples.prepared (Examples.env_of Examples.rejects))
             _ "" Examples.gcc_output
             (files (Examples.prepared (Examples.env_of Examples.rejects)))
             _ _ _ eq_refl _)) _).
    + by repeat split.
    + unfold Examples.prepared. apply run_eq. vm_compute. reflexivity.
    + vm_compute. reflexivity.
    + right. exists 900%N, 1%Z. split; [discriminate|reflexivity].
    + vm_compute. reflexivity.
Defined.

Lemma cleanup_stays_in_the_job_directory_witness :
  files (cleanup (Examples.env_of Examples.builds) Examples.job_id
           (Examples.boot Examples.with_cli)).2
    !! CLI (Examples.env_of Examples.builds)
  = files (Examples.boot Examples.with_cli) !! CLI (Examples.env_of Examples.builds)
  /\ files (cleanup (Examples.env_of Examples.builds) Examples.job_id
              (Examples.prepared (Examples.env_of Examples.builds))).2
       !! sketchFile_of "another-job"
     = files (Examples.prepared (Examples.env_of Examples.builds))
         !! sketchFile_of "another-job".
Proof.
  split.
  - apply (proj1 (cleanup_stays_in_the_job_directory
                    (Examples.env_of Examples.builds) Examples.job_id
                    (Examples.boot Examples.with_cli))).
    by_decide.
  - apply (proj2 (cleanup_stays_in_the_job_directory
                    (Examples.env_of Examples.builds) Examples.job_id
                    (Examples.prepared (Examples.env_of Examples.builds)))
             "another-job").
    + discriminate.
    + by_decide.
Defined.

End HandlerMore.
